(** * astro.new: the redirect endpoint

    A shallow embedding of the request handler of astro.new (the route
    module exporting [get]) and of its two process-wide caches.

    - JavaScript strings are [string]s; the only character the code looks
      for is the ASCII at sign, so the character type plays no role.
    - The two module-level [Map]s are [gmap]s held in an explicit [state],
      next to the outbound requests issued so far and the console output.
    - [async] functions are computations in a state-and-exception monad.
      A call runs to completion before the next one starts: the
      memoization statements below are about calls made after an earlier
      call has returned.
    - The upstream API is a parameter: what [fetch] answers may depend on
      every exchange made before. *)

From Stdlib Require Import ZArith Ascii String List Lia.
From stdpp Require Import base option list gmap strings.

Local Open Scope string_scope.
Local Open Scope Z_scope.

(** ** Strings the way the handler uses them *)

Module Js.

(** The double quote and the line feed of the template literals. *)
Definition dquote : string := String "034"%char EmptyString.
Definition newline : string := String "010"%char EmptyString.

(** [s.indexOf(c)] for a one-character needle: -1 when absent. *)
Fixpoint indexOf (c : ascii) (s : string) : Z :=
  match s with
  | EmptyString => -1
  | String d s' =>
      if Ascii.eqb d c then 0
      else let i := indexOf c s' in if i <? 0 then -1 else i + 1
  end.

(** [s.split(c)] for a one-character separator: every occurrence
    separates, and the result is never empty. *)
Fixpoint split (c : ascii) (s : string) : list string :=
  match s with
  | EmptyString => [EmptyString]
  | String d s' =>
      if Ascii.eqb d c then EmptyString :: split c s'
      else match split c s' with
           | seg :: segs => String d seg :: segs
           | [] => [String d EmptyString]
           end
  end.

(** [xs.join(sep)]. *)
Fixpoint join (sep : string) (xs : list string) : string :=
  match xs with
  | [] => EmptyString
  | [x] => x
  | x :: rest => x ++ sep ++ join sep rest
  end.

(** [s.replace(/^\//, "")]: one leading slash is dropped. *)
Definition stripLeadingSlash (s : string) : string :=
  match s with
  | String "/"%char s' => s'
  | _ => s
  end.

(** [!s] for a value that is a string or [undefined]. *)
Definition falsy (s : option string) : bool :=
  match s with
  | None => true
  | Some EmptyString => true
  | Some _ => false
  end.

(** The part of [s] before its first [c]; all of [s] when it has none. *)
Fixpoint before (c : ascii) (s : string) : string :=
  match s with
  | EmptyString => EmptyString
  | String d s' => if Ascii.eqb d c then EmptyString else String d (before c s')
  end.

(** [needle] occurs somewhere in [hay]. *)
Definition occurs (needle hay : string) : Prop :=
  exists pre post, hay = pre ++ needle ++ post.

End Js.

(** ** Data *)

(** One element of the upstream directory listing, with the three fields
    the cast in [getExamples] declares. [size] is a JSON number; the code
    only compares it with 0, so its sign is what matters. The cast checks
    nothing and the code copies [html_url] as it finds it: the field is
    [None] when the element has none, and reading it gives [undefined]. *)
Module Entry.
Record t := mk { name : string; size : Z; html_url : option string }.
End Entry.

(** A parsed response body. The handler tells [null], arrays and
    everything else apart and looks no further into a value of the last
    kind, which is kept as its text. *)
Inductive json :=
| JNull
| JArray (entries : list Entry.t)
| JValue (text : string).

Definition isArray (j : json) : bool :=
  match j with JArray _ => true | _ => false end.

(** The elements of a value that passed [isArray]. *)
Definition elements (j : json) : list Entry.t :=
  match j with JArray entries => entries | _ => [] end.

(** A template entry. [github] holds what upstream sent as [html_url];
    the other fields are strings the code builds. *)
Record CachedExample := {
  name : string;
  github : option string;
  netlify : string;
  stackblitz : string;
  codesandbox : string;
  gitpod : string
}.

(** [example[key]]: the property read of the handler, [None] standing
    for [undefined]. *)
Definition property (example : CachedExample) (key : string) : option string :=
  if String.eqb key "name" then Some (name example)
  else if String.eqb key "github" then github example
  else if String.eqb key "netlify" then Some (netlify example)
  else if String.eqb key "stackblitz" then Some (stackblitz example)
  else if String.eqb key "codesandbox" then Some (codesandbox example)
  else if String.eqb key "gitpod" then Some (gitpod example)
  else None.

(** Exceptions: [Error] is what the handler throws itself, [TypeError] a
    rejected [fetch], [SyntaxError] a body that is not JSON. *)
Inductive exn :=
| Error (message : string)
| TypeError (message : string)
| SyntaxError (message : string).

Record request := { url : string; headers : list (string * string) }.

Inductive body :=
| Unparseable (why : string)
| Parsed (j : json).

Inductive fetch_result :=
| Rejected (reason : string)
| Responded (status : Z) (content : body).

Definition exchange : Type := request * fetch_result.

Inductive log_line :=
| warn (message : string)
| error_with (message : string) (payload : json)
| error_of (e : exn).

Record state := {
  examplesCache : gmap string (list CachedExample);
  releaseCache : gmap string json;
  outbound : list exchange;
  console : list log_line
}.

(** A freshly started process. *)
Definition init : state :=
  {| examplesCache := ∅; releaseCache := ∅; outbound := []; console := [] |}.

(** ** The monad of the async functions *)

Inductive outcome (A : Type) :=
| Return (a : A)
| Throw (e : exn).
Arguments Return {A} a.
Arguments Throw {A} e.

Definition M (A : Type) : Type := state -> outcome A * state.

Definition ret {A} (a : A) : M A := fun s => (Return a, s).

Definition throw {A} (e : exn) : M A := fun s => (Throw e, s).

Definition bind {A B} (c : M A) (k : A -> M B) : M B :=
  fun s =>
    match c s with
    | (Return a, s') => k a s'
    | (Throw e, s') => (Throw e, s')
    end.

Definition tryCatch {A} (c : M A) (handler : exn -> M A) : M A :=
  fun s =>
    match c s with
    | (Return a, s') => (Return a, s')
    | (Throw e, s') => handler e s'
    end.

Declare Scope js_scope.
Delimit Scope js_scope with js.
Notation "x <- c ;; k" := (bind c (fun x => k))
  (at level 100, c at next level, right associativity) : js_scope.
Notation "c ;; k" := (bind c (fun _ => k))
  (at level 100, right associativity) : js_scope.
Local Open Scope js_scope.

(** The four ways the handler changes the state. *)
Definition logged (l : log_line) (s : state) : state :=
  {| examplesCache := examplesCache s; releaseCache := releaseCache s;
     outbound := outbound s; console := console s ++ [l] |}.

Definition sent (x : exchange) (s : state) : state :=
  {| examplesCache := examplesCache s; releaseCache := releaseCache s;
     outbound := outbound s ++ [x]; console := console s |}.

Definition storedExamples (ref : string) (values : list CachedExample)
    (s : state) : state :=
  {| examplesCache := <[ref := values]> (examplesCache s);
     releaseCache := releaseCache s;
     outbound := outbound s; console := console s |}.

Definition storedRelease (ref : string) (release : json) (s : state) : state :=
  {| examplesCache := examplesCache s;
     releaseCache := <[ref := release]> (releaseCache s);
     outbound := outbound s; console := console s |}.

Definition log (l : log_line) : M unit :=
  fun s => (Return tt, logged l s).

Definition examplesCache_get (ref : string) : M (option (list CachedExample)) :=
  fun s => (Return (examplesCache s !! ref), s).

Definition examplesCache_set (ref : string) (values : list CachedExample) : M unit :=
  fun s => (Return tt, storedExamples ref values s).

Definition releaseCache_get (ref : string) : M (option json) :=
  fun s => (Return (releaseCache s !! ref), s).

Definition releaseCache_set (ref : string) (release : json) : M unit :=
  fun s => (Return tt, storedRelease ref release s).

(** ** The route module *)

Section Route.

(** [process.env.VITE_GITHUB_TOKEN], [None] when undefined. *)
Variable VITE_GITHUB_TOKEN : option string.

(** The upstream API: the answer to a request, given the exchanges made
    so far. *)
Variable fetch : list exchange -> request -> fetch_result.

(** The header block both fetching functions start with: a warning when
    no token is configured, an [Authorization] header otherwise. *)
Definition requestHeaders : M (list (string * string)) :=
  let headers := [("Accept", "application/vnd.github.v3+json")] in
  match VITE_GITHUB_TOKEN with
  | None =>
      log (warn "VITE_GITHUB_TOKEN is undefined. You may run into rate-limiting issues.") ;;
      ret headers
  | Some token =>
      ret (List.app headers [("Authorization", "token " ++ token)])
  end.

(** [await fetch(url, { headers })]: the exchange is recorded, a rejected
    request throws. *)
Definition awaitFetch (u : string) (hs : list (string * string)) : M (Z * body) :=
  fun s =>
    let req := {| url := u; headers := hs |} in
    let res := fetch (outbound s) req in
    match res with
    | Rejected reason => (Throw (TypeError reason), sent (req, res) s)
    | Responded status content => (Return (status, content), sent (req, res) s)
    end.

(** [await response.json()]. *)
Definition awaitJson (content : body) : M json :=
  match content with
  | Unparseable why => throw (SyntaxError why)
  | Parsed j => ret j
  end.

Definition examplesUrl (ref : string) : string :=
  "https://api.github.com/repos/withastro/astro/contents/examples?ref=" ++ ref.

Definition releaseUrl (ref : string) : string :=
  "https://api.github.com/repos/withastro/astro/releases/tags/astro@" ++ ref.

(** The object literal of [getExamples]. *)
Definition templateEntry (ref : string) (example : Entry.t) : CachedExample :=
  {| name := Entry.name example;
     github := Entry.html_url example;
     netlify := "https://astro.build";
     stackblitz :=
       "https://stackblitz.com/github/withastro/astro/tree/" ++ ref
         ++ "/examples/" ++ Entry.name example;
     codesandbox :=
       "https://codesandbox.io/p/sandbox/github/withastro/astro/tree/" ++ ref
         ++ "/examples/" ++ Entry.name example;
     gitpod :=
       "https://gitpod.io/#https://github.com/withastro/astro/tree/" ++ ref
         ++ "/examples/" ++ Entry.name example |}.

(** The callback of [flatMap] in [getExamples]. *)
Definition toExample (ref : string) (example : Entry.t) : list CachedExample :=
  if Entry.size example >? 0 then [] else [templateEntry ref example].

Definition UpstreamFormatError : exn :=
  Error "Unable to fetch templates from GitHub".

(** [getExamples(ref)]. Every caller passes the argument, so its default
    value is not modelled. An array, even an empty one, is truthy: the
    early return is taken exactly when the key is present. *)
Definition getExamples (ref : string) : M (list CachedExample) :=
  existing <- examplesCache_get ref ;;
  match existing with
  | Some existing => ret existing
  | None =>
      hs <- requestHeaders ;;
      examplesResponse <- awaitFetch (examplesUrl ref) hs ;;
      examples <- awaitJson (snd examplesResponse) ;;
      if negb (isArray examples) then
        log (error_with "Unable to fetch templates from GitHub. Expected array, got:"
                        examples) ;;
        throw UpstreamFormatError
      else
        let values := flat_map (toExample ref) (elements examples) in
        examplesCache_set ref values ;;
        ret values
  end.

(** [getRelease(ref)]. *)
Definition getRelease (ref : string) : M json :=
  cached <- releaseCache_get ref ;;
  match cached with
  | Some release => ret release
  | None =>
      hs <- requestHeaders ;;
      res <- awaitFetch (releaseUrl ref) hs ;;
      release <- (if fst res =? 200 then awaitJson (snd res) else ret JNull) ;;
      releaseCache_set ref release ;;
      ret release
  end.

Definition invalidVersionMessage (name : string) : string :=
  "Invalid version " ++ Js.dquote ++ name ++ Js.dquote
    ++ "! Supported versions are " ++ Js.dquote ++ "next" ++ Js.dquote
    ++ ", " ++ Js.dquote ++ "latest" ++ Js.dquote
    ++ ", or any <a href=" ++ Js.dquote
    ++ "https://github.com/withastro/astro/releases?q=astro%40" ++ Js.dquote
    ++ ">GitHub release</a>.".

Definition InvalidReference (name : string) : exn :=
  Error (invalidVersionMessage name).

(** [validateRef(name)]. *)
Definition validateRef (name : string) : M bool :=
  if String.eqb name "next" || String.eqb name "latest" then ret true
  else
    release <- getRelease name ;;
    match release with
    | JNull => throw (InvalidReference name)
    | _ => ret true
    end.

(** The platform set, in insertion order. *)
Definition PLATFORMS : list string :=
  ["stackblitz"; "codesandbox"; "netlify"; "github"; "gitpod"].

Definition isPlatform (name : string) : bool :=
  existsb (String.eqb name) PLATFORMS.

Record APIContext := {
  pathname : string;              (* context.url.pathname *)
  searchParams_on : option string; (* context.url.searchParams.get("on") *)
  params_rest : option string     (* context.params.rest *)
}.

Record ParsedRequest := {
  ref : string;
  template : string;
  platform : string
}.

Definition unsupportedPlatformMessage : string :=
  "Unsupported " ++ Js.dquote ++ "on" ++ Js.dquote
    ++ " query! Supported platforms are:" ++ Js.newline ++ "  - "
    ++ Js.join (Js.newline ++ "  - ") (map (fun x => x) PLATFORMS).

Definition UnsupportedPlatform : exn := Error unsupportedPlatformMessage.

Definition MalformedReference : exn := Error "why have you forsaken me".

(** The first two lines of [parseReq]. *)
Definition requestedPlatform (context : APIContext) : string :=
  default "stackblitz" (searchParams_on context).

Definition requestedPath (context : APIContext) : string :=
  default "" (Js.stripLeadingSlash <$> params_rest context).

(** The cache key chosen for an explicit reference. *)
Definition cacheKey (ref : string) : string :=
  if String.eqb ref "next" then "main"
  else if String.eqb ref "latest" then "latest"
  else "astro@" ++ ref.

(** [parseReq(context)]. *)
Definition parseReq (context : APIContext) : M ParsedRequest :=
  let platform := requestedPlatform context in
  let path := requestedPath context in
  if negb (isPlatform platform) then throw UnsupportedPlatform
  else
    if Js.indexOf "@" path >? -1 then
      let parts := Js.split "@" path in
      let template := parts !! 0%nat in
      let ref := parts !! 1%nat in
      if Js.falsy ref || Js.falsy template then throw MalformedReference
      else
        validateRef (default "" ref) ;;
        ret {| ref := cacheKey (default "" ref);
               template := default "" template;
               platform := platform |}
    else
      ret {| ref := "latest"; template := path; platform := platform |}.

Inductive response :=
| Redirect (location : option string)
| Response (content : string) (status : Z).

Definition notFoundMessage (template : string) (examples : list CachedExample) : string :=
  "Unable to find " ++ template ++ "! Supported templates are:" ++ Js.newline ++ "  - "
    ++ Js.join (Js.newline ++ "  - ") (map name examples).

(** The exported handler. *)
Definition get (context : APIContext) : M response :=
  if String.eqb (pathname context) "/" then ret (Redirect (Some "/latest"))
  else
    tryCatch
      (parsed <- parseReq context ;;
       examples <- getExamples (ref parsed) ;;
       match find (fun x => String.eqb (name x) (template parsed)) examples with
       | None => ret (Response (notFoundMessage (template parsed) examples) 404)
       | Some example => ret (Redirect (property example (platform parsed)))
       end)
      (fun error =>
         log (error_of error) ;;
         ret (Response "An internal error occurred" 500)).

(** *** Successive calls

    The calls a process makes one after the other, each run to completion
    in the state the previous one left. *)

Inductive call :=
| CallGetExamples (ref : string)
| CallGetRelease (ref : string)
| CallValidateRef (name : string)
| CallParseReq (context : APIContext)
| CallGet (context : APIContext).

Definition perform (c : call) (s : state) : state :=
  match c with
  | CallGetExamples ref => snd (getExamples ref s)
  | CallGetRelease ref => snd (getRelease ref s)
  | CallValidateRef name => snd (validateRef name s)
  | CallParseReq context => snd (parseReq context s)
  | CallGet context => snd (get context s)
  end.

Definition performAll (cs : list call) (s : state) : state :=
  fold_left (fun s c => perform c s) cs s.

End Route.

(** The headers a request carries, and the state in which it is sent. *)
Definition sentHeaders (token : option string) : list (string * string) :=
  match token with
  | None => [("Accept", "application/vnd.github.v3+json")]
  | Some token =>
      [("Accept", "application/vnd.github.v3+json");
       ("Authorization", "token " ++ token)]
  end.

Definition warned (token : option string) (s : state) : state :=
  snd (requestHeaders token s).

Definition listingRequest (token : option string) (ref : string) : request :=
  {| url := examplesUrl ref; headers := sentHeaders token |}.

Definition releaseRequest (token : option string) (ref : string) : request :=
  {| url := releaseUrl ref; headers := sentHeaders token |}.

(** Whether an exchange is a listing request for [ref] answered with an
    array, and how many of these a log holds. *)
Definition listingReceived (ref : string) (x : exchange) : bool :=
  String.eqb (url (fst x)) (examplesUrl ref)
  && match snd x with
     | Responded _ (Parsed (JArray _)) => true
     | _ => false
     end.

Definition listingsReceived (ref : string) (log : list exchange) : nat :=
  length (List.filter (listingReceived ref) log).

(** ** The specification's reading of the reference split *)

Module Spec.

(** Modelled from the specification's sentence on the split, for
    comparison with [Js.split]: the path is cut at its first [c] into
    what precedes it and everything that follows it. *)
Fixpoint splitFirst (c : ascii) (s : string) : option (string * string) :=
  match s with
  | EmptyString => None
  | String d s' =>
      if Ascii.eqb d c then Some (EmptyString, s')
      else match splitFirst c s' with
           | Some (l, r) => Some (String d l, r)
           | None => None
           end
  end.

End Spec.

(** ** Sample upstreams *)

Module Sample.

(** No network: every request is rejected. *)
Definition offline : list exchange -> request -> fetch_result :=
  fun _ _ => Rejected "fetch failed".

Definition listing : list Entry.t :=
  [Entry.mk "basics" 0 (Some "https://x/basics");
   Entry.mk "README.md" 42 (Some "https://x/readme")].

(** An upstream with a listing for [latest] and one release, 1.0.0. *)
Definition upstream : list exchange -> request -> fetch_result :=
  fun _ req =>
    if String.eqb (url req) (examplesUrl "latest")
    then Responded 200 (Parsed (JArray listing))
    else if String.eqb (url req) (releaseUrl "1.0.0")
    then Responded 200 (Parsed (JValue "{ tag_name: astro@1.0.0 }"))
    else Responded 404 (Parsed (JValue "{ message: Not Found }")).

(** An upstream whose listing has an element of negative size. *)
Definition draft : Entry.t := Entry.mk "draft" (-1) (Some "https://x/draft").

Definition oddSizes : list exchange -> request -> fetch_result :=
  fun _ _ => Responded 200 (Parsed (JArray (draft :: listing))).

(** An upstream whose listing has an element without [html_url]. *)
Definition nourl : Entry.t := Entry.mk "nourl" 0 None.

Definition bare : list exchange -> request -> fetch_result :=
  fun _ _ => Responded 200 (Parsed (JArray [nourl])).

Definition context (on : option string) (rest : string) : APIContext :=
  {| pathname := "/" ++ rest; searchParams_on := on; params_rest := Some rest |}.

End Sample.

(** ** Notions used by the statements *)

(** Both caches of [s'] hold everything the caches of [s] hold. *)
Definition grows (s s' : state) : Prop :=
  examplesCache s ⊆ examplesCache s' /\ releaseCache s ⊆ releaseCache s'.

(** Every listing received is in the cache, and none was received twice. *)
Definition accounted (s : state) : Prop :=
  forall ref,
    (examplesCache s !! ref = None -> listingsReceived ref (outbound s) = 0%nat)
    /\ (listingsReceived ref (outbound s) <= 1)%nat.

(** A computation keeps a property of the state, whatever it returns. *)
Definition preserves {A} (P : state -> Prop) (c : M A) : Prop :=
  forall s, P s -> P (snd (c s)).

(** A property that does not look at the console. *)
Definition silent (P : state -> Prop) : Prop :=
  forall s l, P s -> P (snd (log l s)).


(** Every cached listing was built, under its own key, from upstream
    elements whose size is not above zero. *)
Definition built (s : state) : Prop :=
  forall key values,
    examplesCache s !! key = Some values ->
    exists entries,
      values = map (templateEntry key) entries
      /\ Forall (fun e => Entry.size e <= 0) entries.

(** A reference a release lookup is made for: not one of the two moving
    names, not empty, without an at sign. *)
Definition lookedUp (r : string) : Prop :=
  r <> "next" /\ r <> "latest" /\ r <> "" /\ Js.indexOf "@" r = -1.

(** A key the handler asks a listing for: [latest], [main], or the tag of
    a release the release cache knows to exist. *)
Definition served (s : state) (key : string) : Prop :=
  key = "latest" \/ key = "main"
  \/ exists r release,
       key = "astro@" ++ r /\ lookedUp r
       /\ releaseCache s !! r = Some release /\ release <> JNull.

(** The keys of both caches are of these kinds. *)
Definition keyed (s : state) : Prop :=
  (forall key, is_Some (examplesCache s !! key) -> served s key)
  /\ (forall r, is_Some (releaseCache s !! r) -> lookedUp r).

Ltac unfold_monad :=
  unfold bind, ret, throw, tryCatch, log, examplesCache_get,
    examplesCache_set, releaseCache_get, releaseCache_set, awaitFetch,
    awaitJson, requestHeaders in *.

(** * Properties *)

(** ** Strings *)

Lemma append_cons (d : ascii) (s t : string) :
  String d s ++ t = String d (s ++ t).
Proof. reflexivity. Qed.

Lemma append_empty_r (s : string) : s ++ "" = s.
Proof. induction s as [|d s IH]; [reflexivity|]. now rewrite append_cons, IH. Qed.

Lemma append_assoc (s t u : string) : (s ++ t) ++ u = s ++ t ++ u.
Proof.
  induction s as [|d s IH]; [reflexivity|]. now rewrite !append_cons, IH.
Qed.

Lemma indexOf_range (c : ascii) (s : string) :
  Js.indexOf c s = -1 \/ 0 <= Js.indexOf c s.
Proof.
  induction s as [|d s IH]; simpl; [now left|].
  destruct (Ascii.eqb d c); [right; lia|].
  destruct (Z.ltb_spec (Js.indexOf c s) 0); [now left | right; lia].
Qed.

(** The first-occurrence cut is defined exactly on the strings that hold
    the separator, ... *)
Lemma splitFirst_indexOf (c : ascii) (s : string) :
  is_Some (Spec.splitFirst c s) <-> Js.indexOf c s > -1.
Proof.
  induction s as [|d s IH]; simpl.
  - split; [intros [x Hx]; discriminate | lia].
  - destruct (Ascii.eqb d c); [split; [lia | eauto]|].
    destruct (Spec.splitFirst c s) as [[l r]|].
    + assert (Js.indexOf c s > -1) by (apply IH; eauto).
      destruct (Z.ltb_spec (Js.indexOf c s) 0); split; eauto; lia.
    + assert (~ Js.indexOf c s > -1) as Hn
        by (intros H; apply IH in H; destruct H; discriminate).
      destruct (Z.ltb_spec (Js.indexOf c s) 0);
        split; [intros [x Hx]; discriminate | lia
               | intros [x Hx]; discriminate | lia].
Qed.

(** ... and its two parts are what stands before the first separator and
    all that stands after it. *)
Lemma splitFirst_parts (c : ascii) (s l r : string) :
  Spec.splitFirst c s = Some (l, r) ->
  s = l ++ String c r /\ Js.indexOf c l = -1.
Proof.
  revert l r; induction s as [|d s IH]; simpl; intros l r H; [discriminate|].
  destruct (Ascii.eqb_spec d c) as [->|Hne].
  - injection H as <- <-. now split.
  - destruct (Spec.splitFirst c s) as [[l' r']|]; [|discriminate].
    injection H as <- <-. destruct (IH l' r' eq_refl) as [-> Hl].
    split; [reflexivity|]. simpl.
    destruct (Ascii.eqb_spec d c); [contradiction|]. now rewrite Hl.
Qed.

Lemma split_before (c : ascii) (s : string) :
  exists segs, Js.split c s = Js.before c s :: segs.
Proof.
  induction s as [|d s [segs IH]]; simpl; [eauto|].
  destruct (Ascii.eqb d c); [eauto|]. rewrite IH. eauto.
Qed.

(** [split] cuts at the first separator and then goes on cutting. *)
Lemma split_splitFirst (c : ascii) (s l r : string) :
  Spec.splitFirst c s = Some (l, r) -> Js.split c s = l :: Js.split c r.
Proof.
  revert l r; induction s as [|d s IH]; simpl; intros l r H; [discriminate|].
  destruct (Ascii.eqb d c).
  - now injection H as <- <-.
  - destruct (Spec.splitFirst c s) as [[l' r']|]; [|discriminate].
    injection H as <- <-. now rewrite (IH l' r' eq_refl).
Qed.

(** Conversely, a string cut at a separator with none before it is cut
    at its first separator. *)
Lemma splitFirst_complete (c : ascii) (l r : string) :
  Js.indexOf c l = -1 -> Spec.splitFirst c (l ++ String c r) = Some (l, r).
Proof.
  induction l as [|d l IH]; intros H.
  - change ("" ++ String c r) with (String c r). cbn.
    now rewrite Ascii.eqb_refl.
  - rewrite append_cons. cbn in *.
    destruct (Ascii.eqb d c); [lia|].
    destruct (Z.ltb_spec (Js.indexOf c l) 0); [|lia].
    destruct (indexOf_range c l) as [E|E]; [|lia].
    now rewrite (IH E).
Qed.

(** [before] stops at the first separator: it holds none, and what it
    leaves out is nothing or starts with the separator. *)
Lemma before_parts (c : ascii) (s : string) :
  Js.indexOf c (Js.before c s) = -1
  /\ (s = Js.before c s \/ exists r, s = Js.before c s ++ String c r).
Proof.
  induction s as [|d s [IHi IHs]]; cbn; [split; [reflexivity | now left]|].
  destruct (Ascii.eqb_spec d c) as [->|Hne]; cbn.
  - split; [reflexivity | right; now exists s].
  - destruct (Ascii.eqb_spec d c); [contradiction|]. rewrite IHi. cbn.
    split; [reflexivity|].
    destruct IHs as [E|[r E]].
    + left. now rewrite <- E.
    + right. exists r. now rewrite append_cons, <- E.
Qed.

Lemma split_no_separator (c : ascii) (s : string) :
  Js.indexOf c s = -1 -> Js.split c s = [s].
Proof.
  induction s as [|d s IH]; simpl; [reflexivity|].
  destruct (Ascii.eqb d c); [lia|].
  destruct (Z.ltb_spec (Js.indexOf c s) 0) as [Hlt|Hge]; [|lia].
  intros _. destruct (indexOf_range c s) as [H|H]; [|lia].
  now rewrite (IH H).
Qed.

Lemma falsy_Some (s : string) : Js.falsy (Some s) = true <-> s = "".
Proof. destruct s; simpl; split; congruence. Qed.

Lemma occurs_refl (needle : string) : Js.occurs needle needle.
Proof. exists "", "". now rewrite append_empty_r. Qed.

Lemma occurs_append_r (needle pre s : string) :
  Js.occurs needle s -> Js.occurs needle (pre ++ s).
Proof.
  intros (a & b & ->). exists (pre ++ a), b. now rewrite append_assoc.
Qed.

Lemma occurs_append_l (needle s post : string) :
  Js.occurs needle s -> Js.occurs needle (s ++ post).
Proof.
  intros (a & b & ->). exists a, (b ++ post). now rewrite !append_assoc.
Qed.

Lemma occurs_join (sep x : string) (xs : list string) :
  In x xs -> Js.occurs x (Js.join sep xs).
Proof.
  induction xs as [|y ys IH]; simpl; [contradiction|].
  intros [->|Hin].
  - destruct ys; [apply occurs_refl | apply occurs_append_l, occurs_refl].
  - destruct ys as [|z zs]; [contradiction|].
    apply occurs_append_r, occurs_append_r, IH, Hin.
Qed.

(** ** The monad *)

Lemma preserves_ret {A} (P : state -> Prop) (a : A) : preserves P (ret a).
Proof. intros s H. exact H. Qed.

Lemma preserves_throw {A} (P : state -> Prop) (e : exn) :
  preserves P (@throw A e).
Proof. intros s H. exact H. Qed.

Lemma preserves_bind {A B} (P : state -> Prop) (c : M A) (k : A -> M B) :
  preserves P c -> (forall a, preserves P (k a)) -> preserves P (bind c k).
Proof.
  intros Hc Hk s H. unfold bind. specialize (Hc s H).
  destruct (c s) as [[a|e] s']; simpl in *; [now apply Hk | exact Hc].
Qed.

Lemma preserves_tryCatch {A} (P : state -> Prop) (c : M A) (h : exn -> M A) :
  preserves P c -> (forall e, preserves P (h e)) -> preserves P (tryCatch c h).
Proof.
  intros Hc Hh s H. unfold tryCatch. specialize (Hc s H).
  destruct (c s) as [[a|e] s']; simpl in *; [exact Hc | now apply Hh].
Qed.

Lemma preserves_log (P : state -> Prop) (l : log_line) :
  silent P -> preserves P (log l).
Proof. intros HP s H. now apply HP. Qed.

Create HintDb preserve.
#[local] Hint Resolve preserves_ret preserves_throw preserves_log : preserve.

(** ** The caches only grow *)

#[local] Instance grows_reflexive : Reflexive grows.
Proof. intros s. split; reflexivity. Qed.

#[local] Instance grows_transitive : Transitive grows.
Proof. intros s1 s2 s3 [? ?] [? ?]. split; etransitivity; eauto. Qed.

Lemma grows_silent (s0 : state) : silent (grows s0).
Proof. intros s l H. exact H. Qed.

Lemma urls_differ (ref ref' : string) : examplesUrl ref <> releaseUrl ref'.
Proof. unfold examplesUrl, releaseUrl, String.append. discriminate. Qed.

Lemma examplesUrl_inj (ref ref' : string) :
  examplesUrl ref = examplesUrl ref' -> ref = ref'.
Proof. unfold examplesUrl. apply String.app_inj. Qed.

Section Properties.

Context (token : option string).
Context (fetch : list exchange -> request -> fetch_result).

Lemma getExamples_grows (s0 : state) (ref : string) :
  preserves (grows s0) (getExamples token fetch ref).
Proof.
  intros s H. transitivity s; [exact H|]. clear H.
  unfold getExamples. unfold_monad.
  destruct (examplesCache s !! ref) eqn:Hc; [reflexivity|].
  destruct token; simpl; destruct (fetch _ _) as [|st [|[]]]; simpl;
    split; simpl; try reflexivity; now apply insert_subseteq.
Qed.

Lemma getRelease_grows (s0 : state) (ref : string) :
  preserves (grows s0) (getRelease token fetch ref).
Proof.
  intros s H. transitivity s; [exact H|]. clear H.
  unfold getRelease. unfold_monad.
  destruct (releaseCache s !! ref) eqn:Hc; [reflexivity|].
  destruct token; simpl; destruct (fetch _ _) as [|st [|j]]; simpl;
    try destruct (st =? 200); simpl;
    split; simpl; try reflexivity; now apply insert_subseteq.
Qed.

(** ** What one call of the two fetching functions does *)

Lemma requestHeaders_run (s : state) :
  requestHeaders token s = (Return (sentHeaders token), warned token s).
Proof. unfold warned, requestHeaders. now destruct token. Qed.

Lemma warned_caches (s : state) :
  examplesCache (warned token s) = examplesCache s
  /\ releaseCache (warned token s) = releaseCache s
  /\ outbound (warned token s) = outbound s.
Proof. unfold warned, requestHeaders. now destruct token. Qed.

Lemma warned_outbound (s : state) : outbound (warned token s) = outbound s.
Proof. apply warned_caches. Qed.

Lemma getExamples_hit (ref : string) (s : state) (values : list CachedExample) :
  examplesCache s !! ref = Some values ->
  getExamples token fetch ref s = (Return values, s).
Proof. intros H. unfold getExamples. unfold_monad. now rewrite H. Qed.

(** On a miss the request goes out; what happens next depends on the
    answer. *)
Lemma getExamples_miss (ref : string) (s : state) :
  examplesCache s !! ref = None ->
  let req := listingRequest token ref in
  let res := fetch (outbound s) req in
  let s1 := sent (req, res) (warned token s) in
  getExamples token fetch ref s =
    match res with
    | Rejected reason => (Throw (TypeError reason), s1)
    | Responded _ (Unparseable why) => (Throw (SyntaxError why), s1)
    | Responded _ (Parsed (JArray entries)) =>
        (Return (flat_map (toExample ref) entries),
         storedExamples ref (flat_map (toExample ref) entries) s1)
    | Responded _ (Parsed examples) =>
        (Throw UpstreamFormatError,
         logged (error_with
                   "Unable to fetch templates from GitHub. Expected array, got:"
                   examples) s1)
    end.
Proof.
  intros H. unfold getExamples, bind at 1, examplesCache_get. rewrite H.
  unfold bind at 1. rewrite requestHeaders_run.
  unfold bind, awaitFetch, awaitJson. rewrite warned_outbound.
  fold (listingRequest token ref).
  destruct (fetch (outbound s) (listingRequest token ref)) as [|st [|[]]];
    reflexivity.
Qed.

Lemma getRelease_hit (ref : string) (s : state) (release : json) :
  releaseCache s !! ref = Some release ->
  getRelease token fetch ref s = (Return release, s).
Proof. intros H. unfold getRelease. unfold_monad. now rewrite H. Qed.

Lemma getRelease_miss (ref : string) (s : state) :
  releaseCache s !! ref = None ->
  let req := releaseRequest token ref in
  let res := fetch (outbound s) req in
  let s1 := sent (req, res) (warned token s) in
  getRelease token fetch ref s =
    match res with
    | Rejected reason => (Throw (TypeError reason), s1)
    | Responded status content =>
        if status =? 200 then
          match content with
          | Unparseable why => (Throw (SyntaxError why), s1)
          | Parsed release => (Return release, storedRelease ref release s1)
          end
        else (Return JNull, storedRelease ref JNull s1)
    end.
Proof.
  intros H. unfold getRelease, bind at 1, releaseCache_get. rewrite H.
  unfold bind at 1. rewrite requestHeaders_run.
  unfold bind, awaitFetch, awaitJson. rewrite warned_outbound.
  fold (releaseRequest token ref).
  destruct (fetch (outbound s) (releaseRequest token ref)) as [|st [|j]];
    simpl; try destruct (st =? 200); reflexivity.
Qed.

(** A value that was returned is in the cache afterwards. *)
Lemma getExamples_stored (ref : string) (s s' : state) (values : list CachedExample) :
  getExamples token fetch ref s = (Return values, s') ->
  examplesCache s' !! ref = Some values.
Proof.
  destruct (examplesCache s !! ref) as [vs|] eqn:Hc.
  - rewrite (getExamples_hit _ _ _ Hc). now intros [= <- <-].
  - rewrite (getExamples_miss _ _ Hc).
    destruct (fetch _ _) as [|st [|[]]]; intros [= <- <-].
    apply lookup_insert_eq.
Qed.

Lemma getRelease_stored (ref : string) (s s' : state) (release : json) :
  getRelease token fetch ref s = (Return release, s') ->
  releaseCache s' !! ref = Some release.
Proof.
  destruct (releaseCache s !! ref) as [v|] eqn:Hc.
  - rewrite (getRelease_hit _ _ _ Hc). now intros [= <- <-].
  - rewrite (getRelease_miss _ _ Hc).
    destruct (fetch _ _) as [|st [|j]]; try destruct (st =? 200);
      intros [= <- <-]; apply lookup_insert_eq.
Qed.

(** What the release lookup can throw. *)
Lemma getRelease_throws (ref : string) (s : state) (e : exn) :
  fst (getRelease token fetch ref s) = Throw e ->
  (exists m, e = TypeError m) \/ (exists m, e = SyntaxError m).
Proof.
  destruct (releaseCache s !! ref) as [v|] eqn:Hc.
  - now rewrite (getRelease_hit _ _ _ Hc).
  - rewrite (getRelease_miss _ _ Hc).
    destruct (fetch _ _) as [|st [|j]]; try destruct (st =? 200);
      simpl; intros [= <-]; eauto.
Qed.

(** ** Properties kept by every call *)

Section Preservation.

Variable P : state -> Prop.
Hypothesis P_silent : silent P.
Hypothesis P_getExamples : forall ref, preserves P (getExamples token fetch ref).
Hypothesis P_getRelease : forall ref, preserves P (getRelease token fetch ref).

Lemma validateRef_preserves (name : string) :
  preserves P (validateRef token fetch name).
Proof.
  unfold validateRef.
  destruct (String.eqb name "next" || String.eqb name "latest");
    [apply preserves_ret|].
  apply preserves_bind; [apply P_getRelease|].
  intros []; auto with preserve.
Qed.

Lemma parseReq_preserves (context : APIContext) :
  preserves P (parseReq token fetch context).
Proof.
  unfold parseReq.
  destruct (negb _); [apply preserves_throw|].
  destruct (_ >? _); [|apply preserves_ret].
  destruct (_ || _); [apply preserves_throw|].
  apply preserves_bind; [apply validateRef_preserves|].
  intros _. apply preserves_ret.
Qed.

Lemma get_preserves (context : APIContext) :
  preserves P (get token fetch context).
Proof.
  unfold get.
  destruct (String.eqb _ _); [apply preserves_ret|].
  apply preserves_tryCatch.
  - apply preserves_bind; [apply parseReq_preserves|]. intros parsed.
    apply preserves_bind; [apply P_getExamples|]. intros examples.
    destruct (find _ _); apply preserves_ret.
  - intros e. apply preserves_bind; auto with preserve.
Qed.

Lemma perform_preserves (c : call) (s : state) :
  P s -> P (perform token fetch c s).
Proof.
  destruct c; simpl.
  - apply P_getExamples.
  - apply P_getRelease.
  - apply validateRef_preserves.
  - apply parseReq_preserves.
  - apply get_preserves.
Qed.

Lemma performAll_preserves (cs : list call) (s : state) :
  P s -> P (performAll token fetch cs s).
Proof.
  revert s. induction cs as [|c cs IH]; intros s H; [exact H|].
  apply IH, perform_preserves, H.
Qed.

End Preservation.

(** Whatever the process does next, the caches keep what they hold. *)
Lemma performAll_grows (cs : list call) (s : state) :
  grows s (performAll token fetch cs s).
Proof.
  apply (performAll_preserves (grows s)).
  - apply grows_silent.
  - intros ref. apply getExamples_grows.
  - intros ref. apply getRelease_grows.
  - reflexivity.
Qed.

Lemma examplesCache_kept (cs : list call) (s : state) (ref : string)
    (values : list CachedExample) :
  examplesCache s !! ref = Some values ->
  examplesCache (performAll token fetch cs s) !! ref = Some values.
Proof.
  intros H. destruct (performAll_grows cs s) as [Hsub _].
  exact (lookup_weaken _ _ _ _ H Hsub).
Qed.

Lemma releaseCache_kept (cs : list call) (s : state) (ref : string)
    (release : json) :
  releaseCache s !! ref = Some release ->
  releaseCache (performAll token fetch cs s) !! ref = Some release.
Proof.
  intros H. destruct (performAll_grows cs s) as [_ Hsub].
  exact (lookup_weaken _ _ _ _ H Hsub).
Qed.

(** ** Counting the listings received *)

Lemma listingsReceived_snoc (ref : string) (log : list exchange) (x : exchange) :
  listingsReceived ref (log ++ [x])
  = (listingsReceived ref log + (if listingReceived ref x then 1 else 0))%nat.
Proof.
  unfold listingsReceived. rewrite List.filter_app, length_app. simpl.
  destruct (listingReceived ref x); reflexivity.
Qed.

Lemma listingReceived_release (ref ref' : string) (res : fetch_result) :
  listingReceived ref (releaseRequest token ref', res) = false.
Proof.
  unfold listingReceived, releaseRequest. cbn [fst snd url].
  destruct (String.eqb_spec (releaseUrl ref') (examplesUrl ref)) as [E|]; [|reflexivity].
  symmetry in E. now apply urls_differ in E.
Qed.

Lemma listingReceived_other (ref ref' : string) (res : fetch_result) :
  ref <> ref' -> listingReceived ref (listingRequest token ref', res) = false.
Proof.
  intros Hne. unfold listingReceived, listingRequest. cbn [fst snd url].
  destruct (String.eqb_spec (examplesUrl ref') (examplesUrl ref)) as [E|]; [|reflexivity].
  apply examplesUrl_inj in E. congruence.
Qed.

Lemma accounted_silent : silent accounted.
Proof. intros s l H. exact H. Qed.

Lemma getRelease_accounted (ref : string) :
  preserves accounted (getRelease token fetch ref).
Proof.
  intros s H. destruct (releaseCache s !! ref) as [v|] eqn:Hc.
  - now rewrite (getRelease_hit _ _ _ Hc).
  - rewrite (getRelease_miss _ _ Hc).
    destruct (warned_caches s) as (He & _ & Ho).
    assert (forall r s', examplesCache s' = examplesCache s ->
              outbound s' = (outbound s ++ [(releaseRequest token ref, r)])%list ->
              accounted s') as Hk.
    { intros r s' He' Ho' ref'. rewrite He', Ho', listingsReceived_snoc,
        listingReceived_release, Nat.add_0_r. apply H. }
    destruct (fetch _ _) as [|st [|j]] eqn:Hf; try destruct (st =? 200); simpl;
      eapply Hk; simpl; rewrite ?He, ?Ho, ?Hf; reflexivity.
Qed.

Lemma getExamples_accounted (ref : string) :
  preserves accounted (getExamples token fetch ref).
Proof.
  intros s H. destruct (examplesCache s !! ref) as [v|] eqn:Hc.
  - now rewrite (getExamples_hit _ _ _ Hc).
  - rewrite (getExamples_miss _ _ Hc).
    destruct (warned_caches s) as (He & _ & Ho).
    destruct (H ref) as [Hzero _]. specialize (Hzero Hc).
    intros ref'. destruct (H ref') as [Hnone Hle].
    destruct (decide (ref' = ref)) as [->|Hne].
    + destruct (fetch _ _) as [|st [|[]]] eqn:Hf;
        cbn [snd outbound examplesCache sent logged storedExamples];
        rewrite ?He, ?Ho, listingsReceived_snoc, Hzero;
        unfold listingReceived; cbn [snd];
        rewrite ?andb_false_r, ?lookup_insert_eq;
        split; try lia; try congruence.
      destruct (_ && _); lia.
    + destruct (fetch _ _) as [|st [|[]]] eqn:Hf;
        cbn [snd outbound examplesCache sent logged storedExamples];
        rewrite ?He, ?Ho, listingsReceived_snoc,
          (listingReceived_other _ _ _ Hne), Nat.add_0_r;
        (rewrite ?lookup_insert_ne by congruence); now split.
Qed.

Lemma init_accounted : accounted init.
Proof. intros ref. split; [reflexivity | unfold listingsReceived; simpl; lia]. Qed.

Lemma performAll_accounted (cs : list call) :
  accounted (performAll token fetch cs init).
Proof.
  apply (performAll_preserves accounted).
  - apply accounted_silent.
  - apply getExamples_accounted.
  - apply getRelease_accounted.
  - apply init_accounted.
Qed.

(** ** The parser *)

Lemma isPlatform_In (name : string) : isPlatform name = true <-> In name PLATFORMS.
Proof.
  unfold isPlatform. rewrite existsb_exists. split.
  - intros (x & Hin & Heq). apply String.eqb_eq in Heq. now subst.
  - intros Hin. exists name. split; [exact Hin | apply String.eqb_refl].
Qed.

Lemma cacheKey_cases (given : string) :
  (given = "next" -> cacheKey given = "main")
  /\ (given = "latest" -> cacheKey given = "latest")
  /\ (given <> "next" -> given <> "latest" -> cacheKey given = "astro@" ++ given).
Proof.
  unfold cacheKey.
  destruct (String.eqb_spec given "next") as [->|Hn];
    [repeat split; congruence|].
  destruct (String.eqb_spec given "latest") as [->|Hl];
    repeat split; congruence.
Qed.

Lemma validateRef_moving (name : string) (s : state) :
  name = "next" \/ name = "latest" ->
  validateRef token fetch name s = (Return true, s).
Proof. intros [-> | ->]; reflexivity. Qed.

Lemma validateRef_release (name : string) (s : state) :
  name <> "next" -> name <> "latest" ->
  validateRef token fetch name s =
    match getRelease token fetch name s with
    | (Return JNull, s') => (Throw (InvalidReference name), s')
    | (Return _, s') => (Return true, s')
    | (Throw e, s') => (Throw e, s')
    end.
Proof.
  intros Hn Hl. unfold validateRef.
  destruct (String.eqb_spec name "next"); [contradiction|].
  destruct (String.eqb_spec name "latest"); [contradiction|].
  simpl. unfold bind.
  destruct (getRelease token fetch name s) as [[[]|] s']; reflexivity.
Qed.

Lemma validateRef_returns (name : string) (s s' : state) (b : bool) :
  validateRef token fetch name s = (Return b, s') -> b = true.
Proof.
  destruct (String.eqb_spec name "next") as [->|Hn]; [now intros [= <- _]|].
  destruct (String.eqb_spec name "latest") as [->|Hl]; [now intros [= <- _]|].
  rewrite (validateRef_release _ _ Hn Hl).
  destruct (getRelease token fetch name s) as [[[]|] s1]; now intros [= <- _].
Qed.

Lemma validateRef_throws (name : string) (s : state) (e : exn) :
  fst (validateRef token fetch name s) = Throw e ->
  e = InvalidReference name
  \/ (exists m, e = TypeError m) \/ (exists m, e = SyntaxError m).
Proof.
  destruct (String.eqb_spec name "next") as [->|Hn]; [discriminate|].
  destruct (String.eqb_spec name "latest") as [->|Hl]; [discriminate|].
  rewrite (validateRef_release _ _ Hn Hl).
  destruct (getRelease token fetch name s) as [[[]|e'] s1] eqn:Hg; simpl;
    intros [= <-]; [now left|].
  right. apply (getRelease_throws name s). now rewrite Hg.
Qed.

Lemma parseReq_unsupported (context : APIContext) (s : state) :
  isPlatform (requestedPlatform context) = false ->
  parseReq token fetch context s = (Throw UnsupportedPlatform, s).
Proof. intros H. unfold parseReq. now rewrite H. Qed.

Lemma parseReq_implicit (context : APIContext) (s : state) :
  isPlatform (requestedPlatform context) = true ->
  Js.indexOf "@" (requestedPath context) = -1 ->
  parseReq token fetch context s =
    (Return {| ref := "latest"; template := requestedPath context;
               platform := requestedPlatform context |}, s).
Proof. intros Hp Hi. unfold parseReq. now rewrite Hp, Hi. Qed.

Lemma parseReq_explicit (context : APIContext) (s : state) (t rest : string) :
  isPlatform (requestedPlatform context) = true ->
  Spec.splitFirst "@" (requestedPath context) = Some (t, rest) ->
  parseReq token fetch context s =
    if Js.falsy (Some (Js.before "@" rest)) || Js.falsy (Some t)
    then (Throw MalformedReference, s)
    else (validateRef token fetch (Js.before "@" rest) ;;
          ret {| ref := cacheKey (Js.before "@" rest); template := t;
                 platform := requestedPlatform context |}) s.
Proof.
  intros Hp Hs. unfold parseReq. rewrite Hp. cbn [negb].
  assert (Js.indexOf "@" (requestedPath context) > -1) as Hi
    by (apply splitFirst_indexOf; eauto).
  destruct (Z.gtb_spec (Js.indexOf "@" (requestedPath context)) (-1)); [|lia].
  rewrite (split_splitFirst _ _ _ _ Hs).
  destruct (split_before "@" rest) as [segs ->]. cbn [lookup list_lookup default].
  now destruct (_ || _).
Qed.

Lemma parseReq_platform_member (context : APIContext) (s s' : state)
    (parsed : ParsedRequest) :
  parseReq token fetch context s = (Return parsed, s') ->
  isPlatform (requestedPlatform context) = true
  /\ platform parsed = requestedPlatform context.
Proof.
  destruct (isPlatform (requestedPlatform context)) eqn:Hp.
  - intros H. split; [reflexivity|]. revert H. unfold parseReq. rewrite Hp.
    cbn [negb]. destruct (_ >? _); [|now intros [= <- _]].
    destruct (_ || _); [discriminate|]. unfold bind.
    destruct (validateRef _ _ _ _) as [[]]; [now intros [= <- _] | discriminate].
  - now rewrite (parseReq_unsupported _ _ Hp).
Qed.

(** ** The claims about the parser *)

(** C1, as the code has it. For a supported platform and a path that
    holds an at sign, cut the path at its first at sign: the template is
    what stands before it, and the reference is what follows it up to
    the next at sign (or up to the end of the path when there is no
    other). The parser fails with [MalformedReference] exactly when one
    of these two is empty; otherwise it validates that reference and,
    when the validation succeeds, returns the template and the cache key
    of the reference. *)
Theorem parseReq_split (context : APIContext) (s : state) (t rest : string) :
  isPlatform (requestedPlatform context) = true ->
  requestedPath context = t ++ String "@" rest ->
  Js.indexOf "@" t = -1 ->
  (fst (parseReq token fetch context s) = Throw MalformedReference
     <-> t = "" \/ Js.before "@" rest = "")
  /\ (t <> "" -> Js.before "@" rest <> "" ->
      parseReq token fetch context s =
        (validateRef token fetch (Js.before "@" rest) ;;
         ret {| ref := cacheKey (Js.before "@" rest); template := t;
                platform := requestedPlatform context |}) s).
Proof.
  intros Hp Hpath Ht0.
  assert (Spec.splitFirst "@" (requestedPath context) = Some (t, rest)) as Hs
    by (rewrite Hpath; now apply splitFirst_complete).
  rewrite (parseReq_explicit _ s _ _ Hp Hs).
  destruct (Js.falsy (Some (Js.before "@" rest))) eqn:Hr;
    destruct (Js.falsy (Some t)) eqn:Ht; cbn [orb];
    try apply falsy_Some in Hr; try apply falsy_Some in Ht;
    try (split; [split; [intros _; auto | reflexivity] | congruence]).
  assert (t <> "") as Ht' by (intros E; apply falsy_Some in E; congruence).
  assert (Js.before "@" rest <> "") as Hr'
    by (intros E; apply falsy_Some in E; congruence).
  split; [|reflexivity].
  split; [|intros [|]; contradiction].
  unfold bind.
  destruct (validateRef token fetch (Js.before "@" rest) s) as [[b|e] s1] eqn:Hv;
    [discriminate|].
  cbn [fst]. intros [= ->].
  assert (fst (validateRef token fetch (Js.before "@" rest) s)
          = Throw MalformedReference) as Hthrow by now rewrite Hv.
  apply validateRef_throws in Hthrow.
  destruct Hthrow as [E | [[m E] | [m E]]]; discriminate E.
Qed.

(** C2. The reference of a successfully parsed request, which is the key
    under which the handler asks for the listing: [latest] when the path
    holds no at sign; otherwise the reference given in the path was
    validated, and the key is [main] when it is [next], [latest] when it
    is [latest], and [astro@] followed by it in every other case. *)
Theorem parseReq_cache_key (context : APIContext) (s s' : state)
    (parsed : ParsedRequest) :
  parseReq token fetch context s = (Return parsed, s') ->
  (Js.indexOf "@" (requestedPath context) = -1 -> ref parsed = "latest")
  /\ (Js.indexOf "@" (requestedPath context) > -1 ->
      exists given,
        Js.split "@" (requestedPath context) !! 1%nat = Some given
        /\ validateRef token fetch given s = (Return true, s')
        /\ (given = "next" -> ref parsed = "main")
        /\ (given = "latest" -> ref parsed = "latest")
        /\ (given <> "next" -> given <> "latest" ->
            ref parsed = "astro@" ++ given)).
Proof.
  intros H. destruct (parseReq_platform_member _ _ _ _ H) as [Hp _]. split.
  - intros Hi. rewrite (parseReq_implicit _ _ Hp Hi) in H. now injection H as <- _.
  - intros Hi. apply splitFirst_indexOf in Hi as [[t rest] Hs].
    exists (Js.before "@" rest).
    rewrite (parseReq_explicit _ _ _ _ Hp Hs) in H.
    rewrite (split_splitFirst _ _ _ _ Hs).
    destruct (split_before "@" rest) as [segs ->].
    split; [reflexivity|].
    destruct (_ || _); [discriminate|]. unfold bind in H.
    destruct (validateRef token fetch (Js.before "@" rest) s) as [[b|e] s1] eqn:Hv;
      [|discriminate].
    apply validateRef_returns in Hv as Hb. subst b.
    injection H as <- <-. split; [reflexivity|]. apply cacheKey_cases.
Qed.

(** C8. Without an [on] parameter the platform is [stackblitz]. With an
    [on] parameter outside the platform set the parser throws an error
    whose message lists every platform of the set, and it does so in the
    state it started in: nothing was sent upstream and no cache was
    touched. *)
Theorem parseReq_platform (context : APIContext) (s : state) :
  (searchParams_on context = None ->
     requestedPlatform context = "stackblitz"
     /\ forall parsed s', parseReq token fetch context s = (Return parsed, s') ->
          platform parsed = "stackblitz")
  /\ (forall on, searchParams_on context = Some on -> ~ In on PLATFORMS ->
        parseReq token fetch context s = (Throw (Error unsupportedPlatformMessage), s)
        /\ outbound (snd (parseReq token fetch context s)) = outbound s
        /\ forall p, In p PLATFORMS -> Js.occurs p unsupportedPlatformMessage).
Proof.
  split.
  - intros Hon. unfold requestedPlatform at 1. rewrite Hon. split; [reflexivity|].
    intros parsed s' H. apply parseReq_platform_member in H as [_ ->].
    unfold requestedPlatform. now rewrite Hon.
  - intros on Hon Hnot.
    assert (isPlatform (requestedPlatform context) = false) as Hp.
    { unfold requestedPlatform. rewrite Hon. change (isPlatform on = false).
      destruct (isPlatform on) eqn:E; [|reflexivity].
      apply isPlatform_In in E. contradiction. }
    rewrite (parseReq_unsupported _ _ Hp). repeat split.
    intros p Hin. unfold unsupportedPlatformMessage.
    do 7 apply occurs_append_r. apply occurs_join.
    now rewrite map_id.
Qed.

(** ** The claims about the validator and the two caches *)

Lemma invalidVersionMessage_names (name : string) :
  Js.occurs (Js.dquote ++ name ++ Js.dquote) (invalidVersionMessage name)
  /\ Js.occurs (Js.dquote ++ "next" ++ Js.dquote) (invalidVersionMessage name)
  /\ Js.occurs (Js.dquote ++ "latest" ++ Js.dquote) (invalidVersionMessage name)
  /\ Js.occurs "GitHub release" (invalidVersionMessage name)
  /\ Js.occurs
       ("<a href=" ++ Js.dquote
          ++ "https://github.com/withastro/astro/releases?q=astro%40"
          ++ Js.dquote ++ ">")
       (invalidVersionMessage name).
Proof.
  unfold invalidVersionMessage. repeat split.
  - apply occurs_append_r.
    eexists "", _. rewrite !append_assoc. reflexivity.
  - do 5 apply occurs_append_r.
    eexists "", _. rewrite !append_assoc. reflexivity.
  - do 9 apply occurs_append_r.
    eexists "", _. rewrite !append_assoc. reflexivity.
  - do 16 apply occurs_append_r.
    exists ">", "</a>.". reflexivity.
  - do 12 apply occurs_append_r.
    exists ", or any ", "GitHub release</a>.". reflexivity.
Qed.

(** C3. [next] and [latest] are accepted in the state the call started
    in, so without a release lookup and without any outbound request. Any
    other name is accepted exactly when the release lookup for it returns
    a value other than [null]; when the lookup returns [null], the call
    throws an error whose message quotes the name, points to [next] and
    [latest] and links to the releases of the upstream repository. *)
Theorem validateRef_spec (name : string) (s : state) :
  (name = "next" \/ name = "latest" ->
     validateRef token fetch name s = (Return true, s))
  /\ (name <> "next" -> name <> "latest" ->
      (forall s', validateRef token fetch name s = (Return true, s') <->
                  exists release,
                    getRelease token fetch name s = (Return release, s')
                    /\ release <> JNull)
      /\ (forall s', getRelease token fetch name s = (Return JNull, s') ->
            validateRef token fetch name s
            = (Throw (Error (invalidVersionMessage name)), s')))
  /\ (Js.occurs (Js.dquote ++ name ++ Js.dquote) (invalidVersionMessage name)
      /\ Js.occurs (Js.dquote ++ "next" ++ Js.dquote) (invalidVersionMessage name)
      /\ Js.occurs (Js.dquote ++ "latest" ++ Js.dquote) (invalidVersionMessage name)
      /\ Js.occurs "GitHub release" (invalidVersionMessage name)
      /\ Js.occurs
           ("<a href=" ++ Js.dquote
              ++ "https://github.com/withastro/astro/releases?q=astro%40"
              ++ Js.dquote ++ ">")
           (invalidVersionMessage name)).
Proof.
  split; [apply validateRef_moving|].
  split; [|apply invalidVersionMessage_names].
  intros Hn Hl. rewrite (validateRef_release _ _ Hn Hl). split.
  - intros s'. destruct (getRelease token fetch name s) as [[release|e] s1].
    + destruct release; split;
        try (intros [= <-]; eexists; split; [reflexivity | discriminate]);
        try discriminate; try (intros (r & [= <- <-] & Hr); congruence).
    + split; [discriminate | intros (r & E & _); discriminate].
  - intros s' ->. reflexivity.
Qed.

(** C4. On a miss, a 200 answer makes the lookup return the parsed body
    and any other status makes it return [null]. Whatever a call
    returned, [null] included, every later call for the same string
    returns again, whatever the process did in between, and leaves the
    state as it found it: no request goes out. *)
Theorem getRelease_memoized (ref : string) (s : state) :
  (releaseCache s !! ref = None ->
   forall status content,
     fetch (outbound s) (releaseRequest token ref) = Responded status content ->
     (status = 200 -> forall release, content = Parsed release ->
        fst (getRelease token fetch ref s) = Return release)
     /\ (status <> 200 -> fst (getRelease token fetch ref s) = Return JNull))
  /\ (forall release s',
        getRelease token fetch ref s = (Return release, s') ->
        forall cs,
          getRelease token fetch ref (performAll token fetch cs s')
          = (Return release, performAll token fetch cs s')
          /\ outbound (snd (getRelease token fetch ref (performAll token fetch cs s')))
             = outbound (performAll token fetch cs s')).
Proof.
  split.
  - intros Hc status content Hf. rewrite (getRelease_miss _ _ Hc), Hf. split.
    + intros -> release ->. reflexivity.
    + intros Hne. destruct (Z.eqb_spec status 200); [contradiction | reflexivity].
  - intros release s' H cs.
    apply getRelease_stored in H.
    apply (releaseCache_kept cs) in H.
    rewrite (getRelease_hit _ _ _ H). now split.
Qed.

(** C5. A call of the listing fetch that returns has its result in the
    cache under the string it was called with, and every later call with
    that string, whatever the process did in between, returns that very
    sequence and leaves the state as it found it, so sends nothing.
    Counted over the life of a process, a listing is received for a given
    string at most once. *)
Theorem getExamples_memoized (ref : string) :
  (forall s values s',
     getExamples token fetch ref s = (Return values, s') ->
     examplesCache s' !! ref = Some values
     /\ forall cs,
          getExamples token fetch ref (performAll token fetch cs s')
          = (Return values, performAll token fetch cs s')
          /\ outbound (snd (getExamples token fetch ref (performAll token fetch cs s')))
             = outbound (performAll token fetch cs s'))
  /\ (forall cs,
        (listingsReceived ref (outbound (performAll token fetch cs init)) <= 1)%nat).
Proof.
  split.
  - intros s values s' H. apply getExamples_stored in H. split; [exact H|].
    intros cs. apply (examplesCache_kept cs) in H.
    rewrite (getExamples_hit _ _ _ H). now split.
  - intros cs. apply (performAll_accounted cs ref).
Qed.

Lemma flat_map_toExample (ref : string) (entries : list Entry.t) :
  flat_map (toExample ref) entries
  = map (templateEntry ref)
        (List.filter (fun e => negb (Entry.size e >? 0)) entries).
Proof.
  induction entries as [|e entries IH]; [reflexivity|].
  cbn [flat_map List.filter]. unfold toExample at 1.
  destruct (Entry.size e >? 0); cbn [negb]; rewrite IH; reflexivity.
Qed.

(** C6, as the code has it. The listing built from an upstream array
    holds one template entry for each element whose size is not above
    zero, in the order of the array, and none for the others. When no
    size is negative these are exactly the elements of size zero. *)
Theorem getExamples_filter (ref : string) (s : state) (status : Z)
    (entries : list Entry.t) :
  examplesCache s !! ref = None ->
  fetch (outbound s) (listingRequest token ref)
  = Responded status (Parsed (JArray entries)) ->
  fst (getExamples token fetch ref s)
  = Return (map (templateEntry ref)
                (List.filter (fun e => Entry.size e <=? 0) entries))
  /\ ((forall e, In e entries -> 0 <= Entry.size e) ->
      fst (getExamples token fetch ref s)
      = Return (map (templateEntry ref)
                    (List.filter (fun e => Entry.size e =? 0) entries))).
Proof.
  intros Hc Hf. rewrite (getExamples_miss _ _ Hc), Hf. cbn [fst].
  rewrite flat_map_toExample.
  split.
  - f_equal. f_equal. apply List.filter_ext_in. intros e _.
    destruct (Z.gtb_spec (Entry.size e) 0), (Z.leb_spec (Entry.size e) 0);
      (reflexivity || lia).
  - intros Hpos. f_equal. f_equal. apply List.filter_ext_in. intros e Hin.
    specialize (Hpos e Hin).
    destruct (Z.gtb_spec (Entry.size e) 0), (Z.eqb_spec (Entry.size e) 0);
      (reflexivity || lia).
Qed.

(** C7. When the answer to the listing request parses to something that
    is not an array, the call throws [UpstreamFormatError]; the last line
    on the console is the error carrying that payload; the listing cache
    is what it was, so it still holds nothing for the string. *)
Theorem getExamples_format_error (ref : string) (s : state) (status : Z)
    (examples : json) :
  examplesCache s !! ref = None ->
  fetch (outbound s) (listingRequest token ref)
  = Responded status (Parsed examples) ->
  isArray examples = false ->
  exists s',
    getExamples token fetch ref s = (Throw UpstreamFormatError, s')
    /\ last (console s')
       = Some (error_with
                 "Unable to fetch templates from GitHub. Expected array, got:"
                 examples)
    /\ examplesCache s' = examplesCache s
    /\ examplesCache s' !! ref = None.
Proof.
  intros Hc Hf Hj. rewrite (getExamples_miss _ _ Hc), Hf.
  destruct (warned_caches s) as (He & _ & _).
  destruct examples; [| discriminate |];
    (eexists; split; [reflexivity|]; cbn [console examplesCache logged sent];
     rewrite last_snoc, He; auto).
Qed.

(** ** The claims about the handler *)

(** The handler away from the root path, case by case. *)
Lemma get_run (context : APIContext) (s : state) :
  pathname context <> "/" ->
  get token fetch context s =
    match parseReq token fetch context s with
    | (Throw e, s1) =>
        (Return (Response "An internal error occurred" 500), logged (error_of e) s1)
    | (Return parsed, s1) =>
        match getExamples token fetch (ref parsed) s1 with
        | (Throw e, s2) =>
            (Return (Response "An internal error occurred" 500),
             logged (error_of e) s2)
        | (Return examples, s2) =>
            match find (fun x => String.eqb (name x) (template parsed)) examples with
            | None =>
                (Return (Response (notFoundMessage (template parsed) examples) 404), s2)
            | Some example =>
                (Return (Redirect (property example (platform parsed))), s2)
            end
        end
    end.
Proof.
  intros Hroot. unfold get.
  destruct (String.eqb_spec (pathname context) "/"); [contradiction|].
  unfold tryCatch, bind.
  destruct (parseReq token fetch context s) as [[parsed|e] s1]; [|reflexivity].
  destruct (getExamples token fetch (ref parsed) s1) as [[examples|e] s2];
    [|reflexivity].
  destruct (find _ examples); reflexivity.
Qed.

Lemma find_name_None (template : string) (examples : list CachedExample) :
  find (fun x => String.eqb (name x) template) examples = None
  <-> ~ In template (map name examples).
Proof.
  induction examples as [|x xs IH]; cbn [find map In]; [tauto|].
  destruct (String.eqb_spec (name x) template) as [E|E].
  - split; [discriminate | intros H; exfalso; apply H; now left].
  - rewrite IH. tauto.
Qed.

Lemma property_platform (example : CachedExample) (p : string) :
  In p PLATFORMS -> p <> "github" ->
  exists target, property example p = Some target.
Proof.
  intros H Hne. cbn [PLATFORMS In] in H.
  destruct H as [<-|[<-|[<-|[<-|[<-|[]]]]]];
    try (eexists; reflexivity); contradiction.
Qed.

Lemma property_github (example : CachedExample) :
  property example "github" = github example.
Proof. reflexivity. Qed.

(** C9. Away from the root path: when the parse and the listing fetch
    both return and the listing has no entry named as the requested
    template, the handler answers 404 with a body in which every template
    name of that listing occurs; when the parse or the listing fetch
    throws, whatever the exception, the handler logs it and answers 500
    with the fixed body. The handler itself never throws. *)
Theorem get_failures (context : APIContext) (s : state) :
  pathname context <> "/" ->
  (forall parsed s1 examples s2,
     parseReq token fetch context s = (Return parsed, s1) ->
     getExamples token fetch (ref parsed) s1 = (Return examples, s2) ->
     ~ In (template parsed) (map name examples) ->
     get token fetch context s
     = (Return (Response (notFoundMessage (template parsed) examples) 404), s2)
     /\ forall x, In x examples ->
          Js.occurs (name x) (notFoundMessage (template parsed) examples))
  /\ (forall e s1,
        parseReq token fetch context s = (Throw e, s1) ->
        get token fetch context s
        = (Return (Response "An internal error occurred" 500),
           logged (error_of e) s1))
  /\ (forall parsed s1 e s2,
        parseReq token fetch context s = (Return parsed, s1) ->
        getExamples token fetch (ref parsed) s1 = (Throw e, s2) ->
        get token fetch context s
        = (Return (Response "An internal error occurred" 500),
           logged (error_of e) s2))
  /\ exists r, fst (get token fetch context s) = Return r.
Proof.
  intros Hroot. rewrite (get_run _ _ Hroot).
  split; [|split; [|split]].
  - intros parsed s1 examples s2 Hparse Hfetch Habsent. rewrite Hparse, Hfetch.
    apply find_name_None in Habsent. rewrite Habsent. split; [reflexivity|].
    intros x Hin. unfold notFoundMessage.
    do 5 apply occurs_append_r. apply occurs_join. now apply in_map.
  - intros e s1 ->. reflexivity.
  - intros parsed s1 e s2 -> ->. reflexivity.
  - destruct (parseReq token fetch context s) as [[parsed|e] s1]; [|eauto].
    destruct (getExamples token fetch (ref parsed) s1) as [[examples|e] s2];
      [|eauto].
    destruct (find _ examples); eauto.
Qed.

(** C10, as the code has it. The platform of a parsed request belongs
    to the platform set, and a template entry has a field for each member
    of that set. Read at a member other than [github], the entry gives a
    string: the code builds these fields itself. Read at [github], it
    gives what [getExamples] copied from the [html_url] of the upstream
    element, a string when upstream sent one and [undefined] when it sent
    none. So a redirect the handler answers with has a defined target for
    the root path and for every platform other than [github]; for
    [github] the target is the [github] field of the entry found. *)
Theorem redirect_target_defined (context : APIContext) (s : state) :
  (forall parsed s1,
     parseReq token fetch context s = (Return parsed, s1) ->
     In (platform parsed) PLATFORMS
     /\ forall example : CachedExample,
          (platform parsed <> "github" ->
           exists target, property example (platform parsed) = Some target)
          /\ (platform parsed = "github" ->
              property example (platform parsed) = github example))
  /\ (forall key entry,
        property (templateEntry key entry) "github" = Entry.html_url entry)
  /\ (forall location s',
        get token fetch context s = (Return (Redirect location), s') ->
        (pathname context = "/" \/ requestedPlatform context <> "github" ->
         exists target, location = Some target)
        /\ (pathname context <> "/" -> requestedPlatform context = "github" ->
            exists parsed s1 examples example,
              parseReq token fetch context s = (Return parsed, s1)
              /\ getExamples token fetch (ref parsed) s1 = (Return examples, s')
              /\ In example examples
              /\ name example = template parsed
              /\ location = github example)).
Proof.
  split; [|split; [reflexivity|]].
  - intros parsed s1 H. apply parseReq_platform_member in H as [Hp Hplat].
    rewrite <- Hplat in Hp. apply isPlatform_In in Hp.
    split; [exact Hp|]. intros example. split.
    + now apply property_platform.
    + intros ->. apply property_github.
  - intros location s'.
    destruct (String.eqb_spec (pathname context) "/") as [Hroot|Hroot].
    { unfold get. rewrite Hroot. cbn. intros [= <- _].
      split; [eauto | contradiction]. }
    rewrite (get_run _ _ Hroot).
    destruct (parseReq token fetch context s) as [[parsed|e] s1] eqn:Hparse;
      [|discriminate].
    destruct (getExamples token fetch (ref parsed) s1) as [[examples|e] s2]
      eqn:Hex; [|discriminate].
    destruct (find _ examples) as [example|] eqn:Hfind; [|discriminate].
    intros [= <- <-].
    apply parseReq_platform_member in Hparse as Hmember.
    destruct Hmember as [Hp Hplat].
    apply find_some in Hfind as [Hin Hname]. apply String.eqb_eq in Hname.
    split.
    + intros [Hr|Hne]; [contradiction|].
      apply property_platform; [|now rewrite Hplat].
      apply isPlatform_In. now rewrite Hplat.
    + intros _ Hgithub. exists parsed, s1, examples, example.
      rewrite Hplat, Hgithub. repeat split; auto.
Qed.

End Properties.

(** * The statements at work on the sample upstreams *)

(** C1 as it was claimed fails on a path with two at signs. Cut at its
    first at sign, [a@@b] has the two parts [a] and [@b], neither of them
    empty, and the parser throws [MalformedReference] all the same. Cut
    at its first at sign, [a@latest@x] has the parts [a] and [latest@x];
    the reference the parser keeps is [latest]: it returns the key
    [latest] without having sent anything, where the reference
    [latest@x] would have needed a release lookup. *)
Lemma parseReq_split_counterexample :
  Spec.splitFirst "@" (requestedPath (Sample.context None "a@@b"))
  = Some ("a", "@b")
  /\ ~ (fst (parseReq None Sample.offline (Sample.context None "a@@b") init)
        = Throw MalformedReference
        <-> "a" = "" \/ "@b" = "")
  /\ Spec.splitFirst "@" (requestedPath (Sample.context None "a@latest@x"))
     = Some ("a", "latest@x")
  /\ parseReq None Sample.offline (Sample.context None "a@latest@x") init
     = (Return {| ref := "latest"; template := "a"; platform := "stackblitz" |},
        init)
  /\ cacheKey "latest@x" <> "latest".
Proof.
  split; [reflexivity|]. split; [|repeat split; discriminate].
  intros [H _]. destruct (H eq_refl); discriminate.
Qed.

Lemma parseReq_split_witness :
  isPlatform (requestedPlatform (Sample.context None "basics@next@x")) = true
  /\ requestedPath (Sample.context None "basics@next@x")
     = "basics" ++ String "@" "next@x"
  /\ Js.indexOf "@" "basics" = -1
  /\ parseReq None Sample.offline (Sample.context None "basics@next@x") init
     = (Return {| ref := "main"; template := "basics"; platform := "stackblitz" |},
        init).
Proof.
  split; [reflexivity|]. split; [reflexivity|]. split; [reflexivity|].
  rewrite (proj2 (parseReq_split None Sample.offline
                    (Sample.context None "basics@next@x") init
                    "basics" "next@x" eq_refl eq_refl eq_refl));
    [reflexivity | discriminate | discriminate].
Defined.

Lemma parseReq_cache_key_witness :
  exists parsed,
    parseReq None Sample.upstream (Sample.context None "basics@1.0.0") init
    = (Return parsed,
       snd (parseReq None Sample.upstream (Sample.context None "basics@1.0.0") init))
    /\ ref parsed = "astro@" ++ "1.0.0".
Proof.
  exists {| ref := "astro@1.0.0"; template := "basics"; platform := "stackblitz" |}.
  assert (parseReq None Sample.upstream (Sample.context None "basics@1.0.0") init
          = (Return {| ref := "astro@1.0.0"; template := "basics";
                       platform := "stackblitz" |},
             snd (parseReq None Sample.upstream
                    (Sample.context None "basics@1.0.0") init))) as H
    by (vm_compute; reflexivity).
  split; [exact H|].
  destruct (parseReq_cache_key None Sample.upstream _ _ _ _ H) as [_ Hk].
  destruct Hk as (given & Hsplit & _ & _ & _ & Hother); [reflexivity|].
  injection Hsplit as <-. apply Hother; discriminate.
Defined.

Lemma parseReq_platform_witness :
  (exists parsed,
     parseReq None Sample.offline (Sample.context None "basics") init
     = (Return parsed, init)
     /\ platform parsed = "stackblitz")
  /\ parseReq None Sample.offline (Sample.context (Some "vercel") "basics") init
     = (Throw (Error unsupportedPlatformMessage), init)
  /\ Js.occurs "gitpod" unsupportedPlatformMessage.
Proof.
  split.
  - exists {| ref := "latest"; template := "basics"; platform := "stackblitz" |}.
    split; [reflexivity|].
    apply (proj2 (proj1 (parseReq_platform None Sample.offline
                           (Sample.context None "basics") init) eq_refl)
             _ init eq_refl).
  - assert (~ In "vercel" PLATFORMS) as Hnot
      by (cbn [PLATFORMS In]; intros [H|[H|[H|[H|[H|[]]]]]]; discriminate).
    destruct (proj2 (parseReq_platform None Sample.offline
                       (Sample.context (Some "vercel") "basics") init)
                "vercel" eq_refl Hnot) as (Hthrow & _ & Hlist).
    split; [exact Hthrow|]. apply Hlist. cbn [PLATFORMS In]. tauto.
Defined.

Lemma validateRef_spec_witness :
  validateRef None Sample.offline "latest" init = (Return true, init)
  /\ fst (validateRef None Sample.upstream "0.0.0" init)
     = Throw (Error (invalidVersionMessage "0.0.0")).
Proof.
  split.
  - apply (proj1 (validateRef_spec None Sample.offline "latest" init)).
    right; reflexivity.
  - destruct (proj1 (proj2 (validateRef_spec None Sample.upstream "0.0.0" init)))
      as [_ Hnull]; [discriminate | discriminate |].
    rewrite (Hnull (snd (getRelease None Sample.upstream "0.0.0" init)));
      [reflexivity | vm_compute; reflexivity].
Defined.

Lemma getRelease_memoized_witness :
  fst (getRelease None Sample.upstream "1.0.0" init)
  = Return (JValue "{ tag_name: astro@1.0.0 }")
  /\ fst (getRelease None Sample.upstream "0.0.0" init) = Return JNull
  /\ outbound
       (snd (getRelease None Sample.upstream "0.0.0"
               (performAll None Sample.upstream
                  [CallGet (Sample.context None "basics")]
                  (snd (getRelease None Sample.upstream "0.0.0" init)))))
     = outbound
         (performAll None Sample.upstream
            [CallGet (Sample.context None "basics")]
            (snd (getRelease None Sample.upstream "0.0.0" init))).
Proof.
  split; [|split].
  - apply (proj1 (proj1 (getRelease_memoized None Sample.upstream "1.0.0" init)
                    eq_refl 200 _ eq_refl) eq_refl _ eq_refl).
  - apply (proj2 (proj1 (getRelease_memoized None Sample.upstream "0.0.0" init)
                    eq_refl 404 _ eq_refl)).
    discriminate.
  - apply (proj2 (getRelease_memoized None Sample.upstream "0.0.0" init)
             JNull (snd (getRelease None Sample.upstream "0.0.0" init))).
    vm_compute; reflexivity.
Defined.

Lemma getExamples_memoized_witness :
  outbound
    (snd (getExamples None Sample.upstream "latest"
            (performAll None Sample.upstream
               [CallGetRelease "1.0.0"]
               (snd (getExamples None Sample.upstream "latest" init)))))
  = outbound
      (performAll None Sample.upstream
         [CallGetRelease "1.0.0"]
         (snd (getExamples None Sample.upstream "latest" init)))
  /\ (listingsReceived "latest"
        (outbound
           (performAll None Sample.upstream
              [CallGet (Sample.context None "basics");
               CallGet (Sample.context (Some "github") "basics@latest")]
              init)) <= 1)%nat.
Proof.
  split.
  - apply (proj2 (proj1 (getExamples_memoized None Sample.upstream "latest")
                    init (map (templateEntry "latest") [Entry.mk "basics" 0 (Some "https://x/basics")])
                    (snd (getExamples None Sample.upstream "latest" init))
                    ltac:(vm_compute; reflexivity))).
  - apply (proj2 (getExamples_memoized None Sample.upstream "latest")).
Defined.

(** C6 as it was claimed fails on an element of negative size: its size
    is not zero, and it is in the listing. *)
Lemma getExamples_filter_counterexample :
  Entry.size Sample.draft <> 0
  /\ fst (getExamples None Sample.oddSizes "latest" init)
     = Return [templateEntry "latest" Sample.draft;
               templateEntry "latest" (Entry.mk "basics" 0 (Some "https://x/basics"))].
Proof. split; [discriminate | reflexivity]. Qed.

Lemma getExamples_filter_witness :
  fst (getExamples None Sample.upstream "latest" init)
  = Return [templateEntry "latest" (Entry.mk "basics" 0 (Some "https://x/basics"))].
Proof.
  apply (proj2 (getExamples_filter None Sample.upstream "latest" init 200
                  Sample.listing eq_refl eq_refl)).
  cbn [Sample.listing In]. intros e [<-|[<-|[]]]; cbn [Entry.size]; lia.
Defined.

Lemma getExamples_format_error_witness :
  exists s',
    getExamples None Sample.upstream "astro@0.0.0" init
    = (Throw UpstreamFormatError, s')
    /\ last (console s')
       = Some (error_with
                 "Unable to fetch templates from GitHub. Expected array, got:"
                 (JValue "{ message: Not Found }"))
    /\ examplesCache s' = examplesCache init
    /\ examplesCache s' !! "astro@0.0.0" = None.
Proof.
  apply (getExamples_format_error None Sample.upstream "astro@0.0.0" init 404
           (JValue "{ message: Not Found }") eq_refl eq_refl eq_refl).
Defined.

Lemma get_failures_witness :
  fst (get None Sample.upstream (Sample.context None "nope") init)
  = Return (Response (notFoundMessage "nope"
                        [templateEntry "latest"
                           (Entry.mk "basics" 0 (Some "https://x/basics"))]) 404)
  /\ fst (get None Sample.upstream (Sample.context (Some "vercel") "basics") init)
     = Return (Response "An internal error occurred" 500)
  /\ fst (get None Sample.upstream (Sample.context None "basics@") init)
     = Return (Response "An internal error occurred" 500)
  /\ fst (get None Sample.upstream (Sample.context None "basics@0.0.0") init)
     = Return (Response "An internal error occurred" 500)
  /\ fst (get None Sample.upstream (Sample.context None "basics@1.0.0") init)
     = Return (Response "An internal error occurred" 500).
Proof.
  split; [|split; [|split; [|split]]].
  - destruct (get_failures None Sample.upstream (Sample.context None "nope") init)
      as (Hnot & _); [discriminate|].
    destruct (Hnot {| ref := "latest"; template := "nope"; platform := "stackblitz" |}
                init
                [templateEntry "latest" (Entry.mk "basics" 0 (Some "https://x/basics"))]
                (snd (getExamples None Sample.upstream "latest" init))
                eq_refl ltac:(vm_compute; reflexivity)) as [-> _];
      [|reflexivity].
    cbn [map In name templateEntry Entry.name]. intros [H|[]]; discriminate.
  - destruct (get_failures None Sample.upstream
                (Sample.context (Some "vercel") "basics") init)
      as (_ & Hparse & _); [discriminate|].
    rewrite (Hparse UnsupportedPlatform init eq_refl). reflexivity.
  - destruct (get_failures None Sample.upstream
                (Sample.context None "basics@") init)
      as (_ & Hparse & _); [discriminate|].
    rewrite (Hparse MalformedReference init eq_refl). reflexivity.
  - destruct (get_failures None Sample.upstream
                (Sample.context None "basics@0.0.0") init)
      as (_ & Hparse & _); [discriminate|].
    rewrite (Hparse (InvalidReference "0.0.0")
               (snd (parseReq None Sample.upstream
                       (Sample.context None "basics@0.0.0") init))
               ltac:(vm_compute; reflexivity)).
    reflexivity.
  - destruct (get_failures None Sample.upstream
                (Sample.context None "basics@1.0.0") init)
      as (_ & _ & Hfetch & _); [discriminate|].
    rewrite (Hfetch {| ref := "astro@1.0.0"; template := "basics";
                       platform := "stackblitz" |}
               (snd (parseReq None Sample.upstream
                       (Sample.context None "basics@1.0.0") init))
               UpstreamFormatError
               (snd (getExamples None Sample.upstream "astro@1.0.0"
                       (snd (parseReq None Sample.upstream
                               (Sample.context None "basics@1.0.0") init))))
               ltac:(vm_compute; reflexivity) ltac:(vm_compute; reflexivity)).
    reflexivity.
Defined.

(** C10 as it was claimed fails on an element without [html_url]: the
    request parses, its platform is in the platform set, its template is
    in the listing, and the target of the redirect is undefined. *)
Lemma redirect_target_counterexample :
  parseReq None Sample.bare (Sample.context (Some "github") "nourl") init
  = (Return {| ref := "latest"; template := "nourl"; platform := "github" |},
     init)
  /\ In "github" PLATFORMS
  /\ fst (getExamples None Sample.bare "latest" init)
     = Return [templateEntry "latest" Sample.nourl]
  /\ name (templateEntry "latest" Sample.nourl) = "nourl"
  /\ fst (get None Sample.bare (Sample.context (Some "github") "nourl") init)
     = Return (Redirect None).
Proof. repeat split. cbn [PLATFORMS In]. tauto. Qed.

Lemma redirect_target_defined_witness :
  (exists target,
     fst (get None Sample.upstream (Sample.context None "basics") init)
     = Return (Redirect (Some target)))
  /\ (exists example,
        name example = "basics" /\ github example = Some "https://x/basics")
  /\ property (templateEntry "latest" Sample.nourl) "github" = None.
Proof.
  split; [|split].
  - destruct (proj1 (proj2 (proj2 (redirect_target_defined None Sample.upstream
                                     (Sample.context None "basics") init))
                       (Some "https://stackblitz.com/github/withastro/astro/tree/latest/examples/basics")
                       (snd (get None Sample.upstream
                               (Sample.context None "basics") init))
                       ltac:(vm_compute; reflexivity))
                ltac:(right; discriminate)) as [target Htarget].
    exists target. rewrite <- Htarget. vm_compute; reflexivity.
  - destruct (proj2 (proj2 (proj2 (redirect_target_defined None Sample.upstream
                                     (Sample.context (Some "github") "basics") init))
                       (Some "https://x/basics")
                       (snd (get None Sample.upstream
                               (Sample.context (Some "github") "basics") init))
                       ltac:(vm_compute; reflexivity))
                ltac:(discriminate) eq_refl)
      as (parsed & s1 & examples & example & Hparse & _ & _ & Hname & Hloc).
    exists example. injection Hparse as <- _. now split.
  - apply (proj1 (proj2 (redirect_target_defined None Sample.bare
                           (Sample.context (Some "github") "nourl") init))
             "latest" Sample.nourl).
Defined.

(** * Further properties of the route module *)

Section Further.

Context (token : option string).
Context (fetch : list exchange -> request -> fetch_result).

(** ** What a call changes *)

(** A release lookup either finds its key and changes nothing, or sends
    one request and at most adds its key to the release cache. *)
Lemma getRelease_effect (ref : string) (s : state) :
  (is_Some (releaseCache s !! ref) /\ snd (getRelease token fetch ref s) = s)
  \/ (releaseCache s !! ref = None
      /\ examplesCache (snd (getRelease token fetch ref s)) = examplesCache s
      /\ outbound (snd (getRelease token fetch ref s))
         = (outbound s
              ++ [(releaseRequest token ref,
                   fetch (outbound s) (releaseRequest token ref))])%list
      /\ ((releaseCache (snd (getRelease token fetch ref s)) = releaseCache s
           /\ exists e, fst (getRelease token fetch ref s) = Throw e)
          \/ exists release,
               fst (getRelease token fetch ref s) = Return release
               /\ releaseCache (snd (getRelease token fetch ref s))
                  = <[ref := release]> (releaseCache s))).
Proof.
  destruct (releaseCache s !! ref) as [v|] eqn:Hc.
  - left. split; [eauto|]. now rewrite (getRelease_hit _ _ _ _ _ Hc).
  - right. split; [reflexivity|]. rewrite (getRelease_miss _ _ _ _ Hc).
    destruct (warned_caches token s) as (He & Hr & Ho).
    destruct (fetch _ _) as [|st [|j]]; try destruct (st =? 200);
      cbn [fst snd examplesCache releaseCache outbound sent storedRelease];
      rewrite ?He, ?Hr, ?Ho; repeat split; eauto.
Qed.

Lemma getExamples_effect (ref : string) (s : state) :
  (is_Some (examplesCache s !! ref) /\ snd (getExamples token fetch ref s) = s)
  \/ (examplesCache s !! ref = None
      /\ releaseCache (snd (getExamples token fetch ref s)) = releaseCache s
      /\ outbound (snd (getExamples token fetch ref s))
         = (outbound s
              ++ [(listingRequest token ref,
                   fetch (outbound s) (listingRequest token ref))])%list
      /\ ((examplesCache (snd (getExamples token fetch ref s)) = examplesCache s
           /\ exists e, fst (getExamples token fetch ref s) = Throw e)
          \/ exists values,
               fst (getExamples token fetch ref s) = Return values
               /\ examplesCache (snd (getExamples token fetch ref s))
                  = <[ref := values]> (examplesCache s))).
Proof.
  destruct (examplesCache s !! ref) as [v|] eqn:Hc.
  - left. split; [eauto|]. now rewrite (getExamples_hit _ _ _ _ _ Hc).
  - right. split; [reflexivity|]. rewrite (getExamples_miss _ _ _ _ Hc).
    destruct (warned_caches token s) as (He & Hr & Ho).
    destruct (fetch _ _) as [|st [|[]]];
      cbn [fst snd examplesCache releaseCache outbound sent storedExamples logged];
      rewrite ?He, ?Hr, ?Ho; repeat split; eauto.
Qed.

(** X1. The two caches do not interfere: a listing fetch leaves the
    release cache alone and a release lookup the listing cache, and
    within a cache a call for one string leaves the entries of every
    other string as they were. *)
Theorem caches_isolated (ref other : string) (s : state) :
  other <> ref ->
  examplesCache (snd (getExamples token fetch ref s)) !! other
  = examplesCache s !! other
  /\ releaseCache (snd (getRelease token fetch ref s)) !! other
     = releaseCache s !! other
  /\ releaseCache (snd (getExamples token fetch ref s)) = releaseCache s
  /\ examplesCache (snd (getRelease token fetch ref s)) = examplesCache s.
Proof.
  intros Hne.
  destruct (getExamples_effect ref s)
    as [[_ ->] | (_ & Hr & _ & [[-> _] | (values & _ & ->)])];
    destruct (getRelease_effect ref s)
      as [[_ ->] | (_ & He & _ & [[-> _] | (release & _ & ->)])];
    rewrite ?Hr, ?He; repeat split;
    rewrite ?lookup_insert_ne by congruence; reflexivity.
Qed.

(** X2. A failure is never cached. A listing fetch or a release lookup
    that throws leaves no entry for its string, so the next call for that
    string sends a request again. *)
Theorem failures_not_cached (ref : string) (s : state) :
  (forall e s',
     getExamples token fetch ref s = (Throw e, s') ->
     examplesCache s' !! ref = None
     /\ outbound (snd (getExamples token fetch ref s'))
        = (outbound s'
             ++ [(listingRequest token ref,
                  fetch (outbound s') (listingRequest token ref))])%list)
  /\ (forall e s',
        getRelease token fetch ref s = (Throw e, s') ->
        releaseCache s' !! ref = None
        /\ outbound (snd (getRelease token fetch ref s'))
           = (outbound s'
                ++ [(releaseRequest token ref,
                     fetch (outbound s') (releaseRequest token ref))])%list).
Proof.
  split; intros e s' H.
  - assert (examplesCache s' !! ref = None) as Hnone.
    { destruct (getExamples_effect ref s)
        as [[[v Hv] _] | (Hc & _ & _ & [[He _] | (values & Hv & _)])].
      - rewrite (getExamples_hit _ _ _ _ _ Hv) in H. discriminate.
      - rewrite H in He. cbn [snd] in He. now rewrite He.
      - rewrite H in Hv. discriminate. }
    split; [exact Hnone|].
    destruct (getExamples_effect ref s') as [[[v Hv] _] | (_ & _ & Ho & _)];
      [congruence | exact Ho].
  - assert (releaseCache s' !! ref = None) as Hnone.
    { destruct (getRelease_effect ref s)
        as [[[v Hv] _] | (Hc & _ & _ & [[He _] | (release & Hv & _)])].
      - rewrite (getRelease_hit _ _ _ _ _ Hv) in H. discriminate.
      - rewrite H in He. cbn [snd] in He. now rewrite He.
      - rewrite H in Hv. discriminate. }
    split; [exact Hnone|].
    destruct (getRelease_effect ref s') as [[[v Hv] _] | (_ & _ & Ho & _)];
      [congruence | exact Ho].
Qed.

(** X3. A verdict of the validator sticks. Once a name was accepted, or
    rejected as an invalid version, every later validation of that name,
    whatever the process did in between, gives the same verdict and
    leaves the state as it found it: nothing is sent. *)
Theorem validateRef_memoized (name : string) (s s' : state) (o : outcome bool) :
  validateRef token fetch name s = (o, s') ->
  o = Return true \/ o = Throw (InvalidReference name) ->
  forall cs,
    validateRef token fetch name (performAll token fetch cs s')
    = (o, performAll token fetch cs s').
Proof.
  intros H Ho cs.
  destruct (String.eqb_spec name "next") as [->|Hn].
  { rewrite validateRef_moving in H by now left.
    rewrite validateRef_moving by now left. now injection H as <- _. }
  destruct (String.eqb_spec name "latest") as [->|Hl].
  { rewrite validateRef_moving in H by now right.
    rewrite validateRef_moving by now right. now injection H as <- _. }
  rewrite (validateRef_release _ _ _ _ Hn Hl) in H.
  rewrite (validateRef_release _ _ _ _ Hn Hl).
  destruct (getRelease token fetch name s) as [[release|e] s1] eqn:Hg.
  - apply getRelease_stored in Hg.
    assert (s1 = s') as -> by (destruct release; now injection H).
    apply (releaseCache_kept token fetch cs) in Hg.
    rewrite (getRelease_hit _ _ _ _ _ Hg).
    destruct release; now injection H as <-.
  - injection H as <- <-.
    assert (fst (getRelease token fetch name s) = Throw e) as Hthrow
      by now rewrite Hg.
    apply getRelease_throws in Hthrow.
    destruct Ho as [Ho|Ho]; [discriminate|].
    destruct Hthrow as [[m ->] | [m ->]]; discriminate.
Qed.

(** ** Answers that repeat *)

Lemma validateRef_again (name : string) (s s1 s2 : state) (o : outcome bool) :
  validateRef token fetch name s = (o, s1) ->
  o = Return true \/ o = Throw (InvalidReference name) ->
  grows s1 s2 ->
  validateRef token fetch name s2 = (o, s2).
Proof.
  intros H Ho [_ Hsub].
  destruct (String.eqb_spec name "next") as [->|Hn].
  { rewrite validateRef_moving in H by now left.
    rewrite validateRef_moving by now left. now injection H as <- _. }
  destruct (String.eqb_spec name "latest") as [->|Hl].
  { rewrite validateRef_moving in H by now right.
    rewrite validateRef_moving by now right. now injection H as <- _. }
  rewrite (validateRef_release _ _ _ _ Hn Hl) in H.
  rewrite (validateRef_release _ _ _ _ Hn Hl).
  destruct (getRelease token fetch name s) as [[release|e] s'] eqn:Hg.
  - apply getRelease_stored in Hg.
    assert (s' = s1) as -> by (destruct release; now injection H).
    apply (fun E => lookup_weaken _ _ _ _ E Hsub) in Hg.
    rewrite (getRelease_hit _ _ _ _ _ Hg).
    destruct release; now injection H as <-.
  - injection H as <- <-.
    assert (fst (getRelease token fetch name s) = Throw e) as Hthrow
      by now rewrite Hg.
    apply getRelease_throws in Hthrow.
    destruct Ho as [Ho|Ho]; [discriminate|].
    destruct Hthrow as [[m ->] | [m ->]]; discriminate.
Qed.

(** A parse that succeeded succeeds again, with the same result and
    without a change of state, once the caches hold what it left. *)
Lemma parseReq_again (context : APIContext) (s s1 s2 : state)
    (parsed : ParsedRequest) :
  parseReq token fetch context s = (Return parsed, s1) ->
  grows s1 s2 ->
  parseReq token fetch context s2 = (Return parsed, s2).
Proof.
  intros H Hgrows.
  destruct (parseReq_platform_member _ _ _ _ _ _ H) as [Hp _].
  destruct (indexOf_range "@" (requestedPath context)) as [Hi|Hi].
  - rewrite (parseReq_implicit _ _ _ _ Hp Hi) in H.
    rewrite (parseReq_implicit _ _ _ _ Hp Hi). now injection H as <- _.
  - assert (Js.indexOf "@" (requestedPath context) > -1) as Hgt by lia.
    apply splitFirst_indexOf in Hgt as [[t rest] Hs].
    rewrite (parseReq_explicit _ _ _ _ _ _ Hp Hs) in H.
    rewrite (parseReq_explicit _ _ _ _ _ _ Hp Hs).
    destruct (_ || _); [discriminate|]. unfold bind in *.
    destruct (validateRef token fetch (Js.before "@" rest) s) as [[b|e] s'] eqn:Hv;
      [|discriminate].
    apply validateRef_returns in Hv as Hb. subst b.
    injection H as <- <-.
    now rewrite (validateRef_again _ _ _ _ _ Hv (or_introl eq_refl) Hgrows).
Qed.

(** X4. An answer other than a 500 repeats. Once the handler answered a
    request with a redirect or a 404, it gives the same answer to the
    same request ever after, whatever the process did in between, and
    leaves the state as it found it: nothing is sent, nothing is logged. *)
Theorem get_repeatable (context : APIContext) (s s' : state) (r : response) :
  get token fetch context s = (Return r, s') ->
  (forall content, r <> Response content 500) ->
  forall cs,
    get token fetch context (performAll token fetch cs s')
    = (Return r, performAll token fetch cs s').
Proof.
  intros H Hr cs.
  destruct (String.eqb_spec (pathname context) "/") as [Hroot|Hroot].
  { unfold get in *. rewrite Hroot in *. cbn in *. now injection H as <- _. }
  rewrite (get_run _ _ _ _ Hroot) in H. rewrite (get_run _ _ _ _ Hroot).
  destruct (parseReq token fetch context s) as [[parsed|e] s1] eqn:Hparse;
    [|injection H as <- _; now destruct (Hr "An internal error occurred")].
  destruct (getExamples token fetch (ref parsed) s1) as [[examples|e] s2] eqn:Hex;
    [|injection H as <- _; now destruct (Hr "An internal error occurred")].
  assert (s2 = s') as -> by (destruct (find _ examples); now injection H).
  assert (grows s1 s') as H1.
  { pose proof (getExamples_grows token fetch s1 (ref parsed) s1) as Hg.
    rewrite Hex in Hg. apply Hg. reflexivity. }
  assert (grows s1 (performAll token fetch cs s')) as H2
    by (etransitivity; [exact H1 | apply performAll_grows]).
  rewrite (parseReq_again _ _ _ _ _ Hparse H2).
  apply getExamples_stored in Hex.
  apply (examplesCache_kept token fetch cs) in Hex.
  rewrite (getExamples_hit _ _ _ _ _ Hex).
  destruct (find _ examples); now injection H as <-.
Qed.

(** ** What the listing cache holds *)

Lemma built_silent : silent built.
Proof. intros s l H. exact H. Qed.

Lemma init_built : built init.
Proof. intros key values H. discriminate. Qed.

Lemma getRelease_built (ref : string) :
  preserves built (getRelease token fetch ref).
Proof.
  intros s H key values.
  destruct (getRelease_effect ref s) as [[_ ->] | (_ & He & _)]; [apply H|].
  rewrite He. apply H.
Qed.

Lemma getExamples_built (ref : string) :
  preserves built (getExamples token fetch ref).
Proof.
  intros s H key values.
  destruct (examplesCache s !! ref) as [v|] eqn:Hc.
  { rewrite (getExamples_hit _ _ _ _ _ Hc). apply H. }
  rewrite (getExamples_miss _ _ _ _ Hc).
  destruct (warned_caches token s) as (He & _ & _).
  destruct (fetch _ _) as [|st [|[]]];
    cbn [snd examplesCache sent storedExamples logged]; rewrite He;
    try apply H.
  destruct (decide (key = ref)) as [->|Hne].
  - rewrite lookup_insert_eq. intros [= <-].
    rewrite flat_map_toExample. eexists. split; [reflexivity|].
    apply Forall_forall. intros e Hin. apply list_elem_of_In in Hin.
    apply filter_In in Hin as [_ Hsize].
    destruct (Z.gtb_spec (Entry.size e) 0); [discriminate | lia].
  - rewrite lookup_insert_ne by congruence. apply H.
Qed.

Lemma performAll_built (cs : list call) :
  built (performAll token fetch cs init).
Proof.
  apply (performAll_preserves token fetch built).
  - apply built_silent.
  - apply getExamples_built.
  - apply getRelease_built.
  - apply init_built.
Qed.

Lemma built_urls (s : state) (key : string) (values : list CachedExample)
    (x : CachedExample) :
  built s -> examplesCache s !! key = Some values -> In x values ->
  netlify x = "https://astro.build"
  /\ stackblitz x
     = "https://stackblitz.com/github/withastro/astro/tree/" ++ key
         ++ "/examples/" ++ name x
  /\ codesandbox x
     = "https://codesandbox.io/p/sandbox/github/withastro/astro/tree/" ++ key
         ++ "/examples/" ++ name x
  /\ gitpod x
     = "https://gitpod.io/#https://github.com/withastro/astro/tree/" ++ key
         ++ "/examples/" ++ name x.
Proof.
  intros Hb Hc Hin. destruct (Hb key values Hc) as (entries & -> & _).
  apply in_map_iff in Hin as (e & <- & _). repeat split.
Qed.

(** X5. In whatever state a process is, every entry of every cached
    listing carries the URLs of its own key and name: the StackBlitz,
    CodeSandbox and Gitpod addresses name the key the listing is cached
    under and the entry's name, and the Netlify address is the fixed
    placeholder. *)
Theorem cached_entries_urls (cs : list call) (key : string)
    (values : list CachedExample) (x : CachedExample) :
  examplesCache (performAll token fetch cs init) !! key = Some values ->
  In x values ->
  netlify x = "https://astro.build"
  /\ stackblitz x
     = "https://stackblitz.com/github/withastro/astro/tree/" ++ key
         ++ "/examples/" ++ name x
  /\ codesandbox x
     = "https://codesandbox.io/p/sandbox/github/withastro/astro/tree/" ++ key
         ++ "/examples/" ++ name x
  /\ gitpod x
     = "https://gitpod.io/#https://github.com/withastro/astro/tree/" ++ key
         ++ "/examples/" ++ name x.
Proof. apply built_urls, performAll_built. Qed.

(** X6. Where a redirect leads. In whatever state a process is, when a
    request away from the root path parses and is answered with a
    redirect, the target is determined by the parsed request alone for
    four of the five platforms: the StackBlitz, CodeSandbox and Gitpod
    addresses are built from the cache key and the template name, and
    Netlify always leads to the fixed placeholder. *)
Theorem redirect_urls (cs : list call) (context : APIContext)
    (parsed : ParsedRequest) (s1 s' : state) (location : option string) :
  pathname context <> "/" ->
  parseReq token fetch context (performAll token fetch cs init)
  = (Return parsed, s1) ->
  get token fetch context (performAll token fetch cs init)
  = (Return (Redirect location), s') ->
  (platform parsed = "netlify" -> location = Some "https://astro.build")
  /\ (platform parsed = "stackblitz" ->
      location
      = Some ("https://stackblitz.com/github/withastro/astro/tree/" ++ ref parsed
                ++ "/examples/" ++ template parsed))
  /\ (platform parsed = "codesandbox" ->
      location
      = Some ("https://codesandbox.io/p/sandbox/github/withastro/astro/tree/"
                ++ ref parsed ++ "/examples/" ++ template parsed))
  /\ (platform parsed = "gitpod" ->
      location
      = Some ("https://gitpod.io/#https://github.com/withastro/astro/tree/"
                ++ ref parsed ++ "/examples/" ++ template parsed)).
Proof.
  intros Hroot Hparse H.
  pose proof (parseReq_preserves token fetch built getRelease_built context
                _ (performAll_built cs)) as Hb1.
  rewrite (get_run _ _ _ _ Hroot), Hparse in H. rewrite Hparse in Hb1.
  cbn [snd] in Hb1.
  destruct (getExamples token fetch (ref parsed) s1) as [[examples|e] s2] eqn:Hex;
    [|discriminate].
  pose proof (getExamples_built (ref parsed) s1 Hb1) as Hb2.
  rewrite Hex in Hb2. cbn [snd] in Hb2.
  apply getExamples_stored in Hex.
  destruct (find _ examples) as [example|] eqn:Hfind; [|discriminate].
  injection H as <- _.
  apply find_some in Hfind as [Hin Hname]. apply String.eqb_eq in Hname.
  destruct (built_urls _ _ _ _ Hb2 Hex Hin) as (Hn & Hs & Hc & Hg).
  rewrite Hname in Hs, Hc, Hg.
  repeat split; intros ->; cbn; congruence.
Qed.

(** ** The keys the handler uses *)


Lemma keyed_logged (s : state) (l : log_line) : keyed s -> keyed (logged l s).
Proof. intros H. exact H. Qed.



Lemma validateRef_state (name : string) (s : state) :
  name <> "next" -> name <> "latest" ->
  snd (validateRef token fetch name s) = snd (getRelease token fetch name s).
Proof.
  intros Hn Hl. rewrite (validateRef_release _ _ _ _ Hn Hl).
  destruct (getRelease token fetch name s) as [[[]|] s']; reflexivity.
Qed.

(** A parse either leaves the state as it found it and chooses one of
    the two fixed keys, or leaves the state the release lookup for the
    reference given in the path left and, when it returns, chooses the
    tag of that release, which the lookup found. *)
Lemma parseReq_state (context : APIContext) (s : state) :
  (snd (parseReq token fetch context s) = s
   /\ forall parsed, fst (parseReq token fetch context s) = Return parsed ->
        ref parsed = "latest" \/ ref parsed = "main")
  \/ exists r, lookedUp r
       /\ snd (parseReq token fetch context s)
          = snd (getRelease token fetch r s)
       /\ forall parsed, fst (parseReq token fetch context s) = Return parsed ->
            ref parsed = "astro@" ++ r
            /\ exists release,
                 fst (getRelease token fetch r s) = Return release
                 /\ release <> JNull.
Proof.
  destruct (isPlatform (requestedPlatform context)) eqn:Hp;
    [|left; now rewrite (parseReq_unsupported _ _ _ _ Hp)].
  destruct (indexOf_range "@" (requestedPath context)) as [Hi|Hi].
  { left. rewrite (parseReq_implicit _ _ _ _ Hp Hi). split; [reflexivity|].
    intros parsed [= <-]. now left. }
  assert (Js.indexOf "@" (requestedPath context) > -1) as Hgt by lia.
  apply splitFirst_indexOf in Hgt as [[t rest] Hs].
  rewrite (parseReq_explicit _ _ _ _ _ _ Hp Hs).
  destruct (Js.falsy (Some (Js.before "@" rest))) eqn:Hf; [now left|].
  destruct (Js.falsy (Some t)); cbn [orb]; [now left|].
  set (r := Js.before "@" rest) in *.
  destruct (String.eqb_spec r "next") as [Hn|Hn].
  { left. unfold bind. rewrite validateRef_moving by now left.
    split; [reflexivity|]. intros parsed [= <-]. right. cbn [ref].
    now apply cacheKey_cases. }
  destruct (String.eqb_spec r "latest") as [Hl|Hl].
  { left. unfold bind. rewrite validateRef_moving by now right.
    split; [reflexivity|]. intros parsed [= <-]. left. cbn [ref].
    now apply cacheKey_cases. }
  right. exists r.
  assert (lookedUp r) as Hlooked.
  { repeat split; auto.
    - intros E. apply falsy_Some in E. congruence.
    - apply before_parts. }
  split; [exact Hlooked|]. unfold bind.
  rewrite (validateRef_release _ _ _ _ Hn Hl).
  destruct (getRelease token fetch r s) as [[release|e] s1]; cbn [fst snd].
  - destruct release; (split; [reflexivity|]); intros parsed; try discriminate;
      intros [= <-]; cbn [ref];
      (split; [now apply cacheKey_cases | eexists; split; [reflexivity | discriminate]]).
  - split; [reflexivity | discriminate].
Qed.






(** ** The traffic of one request *)

Lemma parseReq_traffic (context : APIContext) (s : state) :
  exists lookups,
    outbound (snd (parseReq token fetch context s))
    = (outbound s ++ lookups)%list
    /\ (lookups = [] \/ exists r res, lookups = [(releaseRequest token r, res)]).
Proof.
  destruct (parseReq_state context s) as [[-> _] | (r & _ & -> & _)].
  - exists []. split; [now rewrite app_nil_r | now left].
  - destruct (getRelease_effect r s) as [[_ ->] | (_ & _ & -> & _)].
    + exists []. split; [now rewrite app_nil_r | now left].
    + eexists. split; [reflexivity | right; eauto].
Qed.

Lemma getExamples_traffic (key : string) (s : state) :
  exists listings,
    outbound (snd (getExamples token fetch key s))
    = (outbound s ++ listings)%list
    /\ (listings = []
        \/ exists res, listings = [(listingRequest token key, res)]).
Proof.
  destruct (getExamples_effect key s) as [[_ ->] | (_ & _ & -> & _)].
  - exists []. split; [now rewrite app_nil_r | now left].
  - eexists. split; [reflexivity | right; eauto].
Qed.

(** X8. The traffic of one request. Serving a request sends at most two
    requests upstream, in this order: at most one release lookup, then at
    most one listing request. A request for the root path, or with a
    platform outside the platform set, sends nothing. *)
Theorem get_traffic (context : APIContext) (s : state) :
  (exists lookups listings,
     outbound (snd (get token fetch context s))
     = (outbound s ++ lookups ++ listings)%list
     /\ (lookups = [] \/ exists r res, lookups = [(releaseRequest token r, res)])
     /\ (listings = []
         \/ exists key res, listings = [(listingRequest token key, res)]))
  /\ (pathname context = "/" \/ isPlatform (requestedPlatform context) = false ->
      outbound (snd (get token fetch context s)) = outbound s).
Proof.
  destruct (String.eqb_spec (pathname context) "/") as [Hroot|Hroot].
  { unfold get. rewrite Hroot. cbn. split; [|reflexivity].
    exists [], []. rewrite app_nil_r. auto. }
  rewrite (get_run _ _ _ _ Hroot). split.
  - destruct (parseReq_traffic context s) as (lookups & Ho & Hl).
    destruct (parseReq token fetch context s) as [[parsed|e] s1]; cbn [snd] in Ho.
    + destruct (getExamples_traffic (ref parsed) s1) as (listings & Ho2 & Hl2).
      exists lookups, listings.
      split; [|split; [exact Hl | destruct Hl2 as [|[res ?]]; eauto]].
      rewrite app_assoc, <- Ho.
      destruct (getExamples token fetch (ref parsed) s1) as [[examples|e] s2];
        cbn [snd] in Ho2; [now destruct (find _ examples) | exact Ho2].
    + exists lookups, []. rewrite app_nil_r. auto.
  - intros [Hr|Hp]; [contradiction|].
    now rewrite (parseReq_unsupported _ _ _ _ Hp).
Qed.

(** ** A template is found when upstream has it *)

Lemma find_templateEntry (key template : string) (entries : list Entry.t) :
  find (fun x => String.eqb (name x) template)
       (flat_map (toExample key) entries) = None
  <-> ~ exists e, In e entries /\ Entry.size e <= 0 /\ Entry.name e = template.
Proof.
  rewrite find_name_None, flat_map_toExample, map_map. cbn [name templateEntry].
  rewrite in_map_iff. split; intros H (e & H1 & H2); apply H.
  - destruct H2 as [Hsize Hname]. exists e. split; [exact Hname|].
    apply filter_In. split; [exact H1|].
    destruct (Z.gtb_spec (Entry.size e) 0); [lia | reflexivity].
  - apply filter_In in H2 as [Hin Hsize]. exists e. repeat split; auto.
    destruct (Z.gtb_spec (Entry.size e) 0); [discriminate | lia].
Qed.

(** X9. A template is found exactly when upstream has it. When a request
    away from the root path parses, its key is not cached yet and
    upstream answers the listing request with an array of directory
    entries, the handler answers as follows. If the array has an element
    of size at most zero named as the requested template, the answer is
    a redirect to what the entry built from such an element holds for the
    platform, which is a string for every platform other than [github]
    and the [html_url] of that element for [github]. If the array has no
    such element, the answer is the 404 that lists the names. *)
Theorem get_fresh_listing (context : APIContext) (s s1 : state)
    (parsed : ParsedRequest) (status : Z) (entries : list Entry.t) :
  pathname context <> "/" ->
  parseReq token fetch context s = (Return parsed, s1) ->
  examplesCache s1 !! ref parsed = None ->
  fetch (outbound s1) (listingRequest token (ref parsed))
  = Responded status (Parsed (JArray entries)) ->
  ((exists e, In e entries /\ Entry.size e <= 0
              /\ Entry.name e = template parsed) ->
   exists e,
     In e entries /\ Entry.size e <= 0 /\ Entry.name e = template parsed
     /\ fst (get token fetch context s)
        = Return (Redirect (property (templateEntry (ref parsed) e)
                                     (platform parsed)))
     /\ (platform parsed <> "github" ->
         exists target,
           property (templateEntry (ref parsed) e) (platform parsed)
           = Some target)
     /\ (platform parsed = "github" ->
         property (templateEntry (ref parsed) e) (platform parsed)
         = Entry.html_url e))
  /\ (~ (exists e, In e entries /\ Entry.size e <= 0
                   /\ Entry.name e = template parsed) ->
      fst (get token fetch context s)
      = Return (Response
                  (notFoundMessage (template parsed)
                     (flat_map (toExample (ref parsed)) entries)) 404)).
Proof.
  intros Hroot Hparse Hc Hf.
  rewrite (get_run _ _ _ _ Hroot), Hparse, (getExamples_miss _ _ _ _ Hc), Hf.
  destruct (find _ _) as [example|] eqn:Hfind; split.
  - intros _.
    destruct (parseReq_platform_member _ _ _ _ _ _ Hparse) as [Hp Hplat].
    rewrite <- Hplat in Hp. apply isPlatform_In in Hp.
    apply find_some in Hfind as [Hin Hname]. apply String.eqb_eq in Hname.
    rewrite flat_map_toExample in Hin.
    apply in_map_iff in Hin as (e & <- & Hin).
    apply filter_In in Hin as [Hin Hsize].
    exists e. repeat split; auto.
    + destruct (Z.gtb_spec (Entry.size e) 0); [discriminate | lia].
    + now apply property_platform.
    + intros ->. reflexivity.
  - intros Hnone.
    apply (proj2 (find_templateEntry (ref parsed) _ _)) in Hnone. congruence.
  - intros Hsome. exfalso. apply find_templateEntry in Hfind. contradiction.
  - intros _. reflexivity.
Qed.

End Further.

(** * The further statements at work on the sample upstream *)

Lemma caches_isolated_witness :
  examplesCache (snd (getExamples None Sample.upstream "latest" init)) !! "main"
  = examplesCache init !! "main".
Proof.
  apply (caches_isolated None Sample.upstream "latest" "main" init).
  discriminate.
Defined.

Lemma failures_not_cached_witness :
  examplesCache (snd (getExamples None Sample.upstream "astro@0.0.0" init))
    !! "astro@0.0.0" = None.
Proof.
  apply (proj1 (failures_not_cached None Sample.upstream "astro@0.0.0" init)
           UpstreamFormatError
           (snd (getExamples None Sample.upstream "astro@0.0.0" init))).
  vm_compute; reflexivity.
Defined.

Lemma validateRef_memoized_witness :
  validateRef None Sample.upstream "0.0.0"
    (performAll None Sample.upstream
       [CallGet (Sample.context None "basics")]
       (snd (validateRef None Sample.upstream "0.0.0" init)))
  = (Throw (InvalidReference "0.0.0"),
     performAll None Sample.upstream
       [CallGet (Sample.context None "basics")]
       (snd (validateRef None Sample.upstream "0.0.0" init))).
Proof.
  apply (validateRef_memoized None Sample.upstream "0.0.0" init
           (snd (validateRef None Sample.upstream "0.0.0" init))
           (Throw (InvalidReference "0.0.0"))).
  - vm_compute; reflexivity.
  - right; reflexivity.
Defined.

Lemma get_repeatable_witness :
  get None Sample.upstream (Sample.context (Some "github") "basics")
    (performAll None Sample.upstream
       [CallGet (Sample.context None "nope@1.0.0")]
       (snd (get None Sample.upstream
               (Sample.context (Some "github") "basics") init)))
  = (Return (Redirect (Some "https://x/basics")),
     performAll None Sample.upstream
       [CallGet (Sample.context None "nope@1.0.0")]
       (snd (get None Sample.upstream
               (Sample.context (Some "github") "basics") init))).
Proof.
  apply (get_repeatable None Sample.upstream
           (Sample.context (Some "github") "basics") init
           (snd (get None Sample.upstream
                   (Sample.context (Some "github") "basics") init))
           (Redirect (Some "https://x/basics"))).
  - vm_compute; reflexivity.
  - discriminate.
Defined.

Lemma cached_entries_urls_witness :
  stackblitz (templateEntry "latest" (Entry.mk "basics" 0 (Some "https://x/basics")))
  = "https://stackblitz.com/github/withastro/astro/tree/" ++ "latest"
      ++ "/examples/" ++ "basics".
Proof.
  apply (cached_entries_urls None Sample.upstream
           [CallGet (Sample.context None "basics")] "latest"
           [templateEntry "latest" (Entry.mk "basics" 0 (Some "https://x/basics"))]
           (templateEntry "latest" (Entry.mk "basics" 0 (Some "https://x/basics")))).
  - vm_compute; reflexivity.
  - now left.
Defined.

Lemma redirect_urls_witness :
  Some "https://gitpod.io/#https://github.com/withastro/astro/tree/latest/examples/basics"
  = Some ("https://gitpod.io/#https://github.com/withastro/astro/tree/"
            ++ "latest" ++ "/examples/" ++ "basics")
  /\ fst (get None Sample.upstream (Sample.context (Some "gitpod") "basics") init)
     = Return (Redirect (Some "https://gitpod.io/#https://github.com/withastro/astro/tree/latest/examples/basics")).
Proof.
  split; [|vm_compute; reflexivity].
  apply (redirect_urls None Sample.upstream []
           (Sample.context (Some "gitpod") "basics")
           {| ref := "latest"; template := "basics"; platform := "gitpod" |}
           init
           (snd (get None Sample.upstream
                   (Sample.context (Some "gitpod") "basics") init))
           (Some "https://gitpod.io/#https://github.com/withastro/astro/tree/latest/examples/basics")).
  - discriminate.
  - reflexivity.
  - vm_compute; reflexivity.
  - reflexivity.
Defined.


Lemma get_traffic_witness :
  outbound (snd (get None Sample.upstream
                   (Sample.context (Some "vercel") "basics@1.0.0") init))
  = outbound init.
Proof.
  apply (proj2 (get_traffic None Sample.upstream
                  (Sample.context (Some "vercel") "basics@1.0.0") init)).
  right; reflexivity.
Defined.

Lemma get_fresh_listing_witness :
  (exists e,
     In e Sample.listing
     /\ fst (get None Sample.upstream (Sample.context None "basics") init)
        = Return (Redirect (property (templateEntry "latest" e) "stackblitz")))
  /\ fst (get None Sample.upstream (Sample.context None "README.md") init)
     = Return (Response
                 (notFoundMessage "README.md"
                    (flat_map (toExample "latest") Sample.listing)) 404).
Proof.
  split.
  - destruct (proj1 (get_fresh_listing None Sample.upstream
                       (Sample.context None "basics") init init
                       {| ref := "latest"; template := "basics";
                          platform := "stackblitz" |}
                       200 Sample.listing
                       ltac:(discriminate) eq_refl eq_refl eq_refl))
      as (e & Hin & _ & _ & Hget & _).
    + exists (Entry.mk "basics" 0 (Some "https://x/basics")).
      split; [now left | split; [cbn; lia | reflexivity]].
    + exists e. split; [exact Hin | exact Hget].
  - apply (proj2 (get_fresh_listing None Sample.upstream
                    (Sample.context None "README.md") init init
                    {| ref := "latest"; template := "README.md";
                       platform := "stackblitz" |}
                    200 Sample.listing
                    ltac:(discriminate) eq_refl eq_refl eq_refl)).
    intros (e & Hin & Hsize & Hname). cbn [Sample.listing In] in Hin.
    destruct Hin as [<-|[<-|[]]]; cbn in *; [discriminate | lia].
Defined.
